(** * Automatic pose detection and photo capture: a shallow embedding

    The development follows the TypeScript sources:
    - [usePoseDetection.ts]  : [evaluatePoseQuality];
    - [App.tsx]              : [handlePoseDetected], [handleCountdownComplete],
                               [handleManualCapture];
    - [CountdownTimer.tsx]   : the countdown effect;
    - [usePhotoCapture.ts]   : [calculatePhotoQuality], [addPhoto],
                               [removePhoto], [getBestPhotos], [clearPhotos];
    - [LayoutGenerator.tsx]  : [generateLayout].

    Conventions.  [Date.now()] is an integer number of milliseconds, a [Z].
    Keypoint scores, pixel positions and photo scores are JavaScript numbers
    that are finite; they are rationals ([Q]) here, with exact arithmetic
    (binary64 rounding is not modelled).  Where the source can produce a
    non-finite number (a division by a zero length), the type [number] below
    adds [NaN] and the two infinities; signed zeros are not distinguished. *)

From Stdlib Require Import ZArith QArith Qabs Qminmax List String Bool Lia Lqa.
From Stdlib Require Import Sorting.Sorted Sorting.Permutation.
Import ListNotations.

Local Open Scope string_scope.
Local Open Scope Z_scope.

(** ** JavaScript numbers *)

Module JS.

Inductive number : Type :=
| Fin (q : Q)
| PosInf
| NegInf
| NaN.

Definition Qltb (a b : Q) : bool := negb (Qle_bool b a).
Definition Qis0 (a : Q) : bool := Qeq_bool a 0.

(** [a + b] *)
Definition add (a b : number) : number :=
  match a, b with
  | NaN, _ | _, NaN => NaN
  | Fin x, Fin y => Fin (x + y)
  | PosInf, NegInf | NegInf, PosInf => NaN
  | PosInf, _ | _, PosInf => PosInf
  | NegInf, _ | _, NegInf => NegInf
  end.

Definition neg (a : number) : number :=
  match a with
  | Fin x => Fin (- x)
  | PosInf => NegInf
  | NegInf => PosInf
  | NaN => NaN
  end.

(** [a - b] *)
Definition sub (a b : number) : number := add a (neg b).

(** [a / b]; a finite non-zero number over zero is an infinity, zero over
    zero is [NaN]. *)
Definition div (a b : number) : number :=
  match a, b with
  | NaN, _ | _, NaN => NaN
  | Fin x, Fin y =>
      if Qis0 y then
        if Qis0 x then NaN else if Qltb 0 x then PosInf else NegInf
      else Fin (x / y)
  | Fin _, _ => Fin 0
  | _, Fin y => if Qltb y 0 then neg a else a
  | _, _ => NaN
  end.

(** [Math.abs] *)
Definition abs (a : number) : number :=
  match a with
  | Fin x => Fin (Qabs x)
  | PosInf | NegInf => PosInf
  | NaN => NaN
  end.

(** [Math.min] of two arguments: [NaN] if either is. *)
Definition min (a b : number) : number :=
  match a, b with
  | NaN, _ | _, NaN => NaN
  | NegInf, _ | _, NegInf => NegInf
  | PosInf, x | x, PosInf => x
  | Fin x, Fin y => Fin (Qmin x y)
  end.

Definition ofZ (z : Z) : number := Fin (inject_Z z).

(** The number is finite and equal, as a rational, to [q]. *)
Definition is_num (a : number) (q : Q) : Prop :=
  match a with
  | Fin x => x == q
  | _ => False
  end.



(** [Array.prototype.slice(0, end)] for an integer [end]: a negative [end]
    counts from the end of the array. *)
Definition slice0 {A : Type} (end_ : Z) (l : list A) : list A :=
  let len := Z.of_nat (List.length l) in
  let final := if end_ <? 0 then Z.max (len + end_) 0 else Z.min end_ len in
  firstn (Z.to_nat final) l.

(** [Array.prototype.map((v, index) => f v index)], indices from [i]. *)
Fixpoint mapi_from {A B : Type} (f : A -> Z -> B) (i : Z) (l : list A)
  : list B :=
  match l with
  | [] => []
  | v :: l' => f v i :: mapi_from f (i + 1) l'
  end.

Definition mapi {A B : Type} (f : A -> Z -> B) (l : list A) : list B :=
  mapi_from f 0 l.

End JS.

(** ** Poses ([types/pose.ts] and the PoseNet keypoints used by the hooks) *)

Record Vector2D : Type := { x : Q; y : Q }.

Record Keypoint : Type := {
  part : string;
  position : Vector2D;
  score : Q
}.

Record Pose : Type := {
  keypoints : list Keypoint;
  pose_score : Q
}.

(** [keypoints.find(kp => kp.part === pointName)] *)
Definition find_part (pointName : string) (kps : list Keypoint) : option Keypoint :=
  find (fun kp => String.eqb (part kp) pointName) kps.

(** [point && point.score > 0.5] *)
Definition point_visible (pointName : string) (kps : list Keypoint) : bool :=
  match find_part pointName kps with
  | Some point => JS.Qltb (1 # 2) (score point)
  | None => false
  end.

(** ** [usePoseDetection.ts]: [evaluatePoseQuality] *)

Module PoseDetection.

Record PoseQuality : Type := {
  isCorrect : bool;
  confidence : Q;
  message : string
}.

Definition requiredPoints : list string :=
  ["nose"; "leftEye"; "rightEye"; "leftEar"; "rightEar"]%string.

Definition visibleFacePoints (kps : list Keypoint) : list string :=
  filter (fun pointName => point_visible pointName kps) requiredPoints.

Definition evaluatePoseQuality (pose : Pose) : PoseQuality :=
  let kps := keypoints pose in
  let visible := visibleFacePoints kps in
  let nose := find_part "nose" kps in
  let leftShoulder := find_part "leftShoulder" kps in
  let rightShoulder := find_part "rightShoulder" kps in
  let default :=
    {| isCorrect := false; confidence := 0;
       message := "Position yourself in the frame" |} in
  if (3 <=? Z.of_nat (List.length visible))%Z then
    let confidence :=
      (inject_Z (Z.of_nat (List.length visible))
       / inject_Z (Z.of_nat (List.length requiredPoints)))%Q in
    match leftShoulder, rightShoulder, nose with
    | Some ls, Some rs, Some n =>
        let shoulderDiff := Qabs (y (position ls) - y (position rs)) in
        let isLevel := JS.Qltb shoulderDiff 50 in
        let isCentered :=
          JS.Qltb 200 (x (position n)) && JS.Qltb (x (position n)) 440 in
        if isLevel && isCentered && JS.Qltb (7 # 10) confidence then
          {| isCorrect := true; confidence := confidence;
             message := "Perfect pose! Stay still..." |}
        else if negb isLevel then
          {| isCorrect := false; confidence := confidence;
             message := "Keep your shoulders level" |}
        else if negb isCentered then
          {| isCorrect := false; confidence := confidence;
             message := "Center yourself in the frame" |}
        else
          {| isCorrect := false; confidence := confidence;
             message := "Almost there, stay still" |}
    | _, _, _ =>
        {| isCorrect := false; confidence := confidence;
           message := "Position yourself in the frame" |}
    end
  else default.

End PoseDetection.

(** ** Captured photos ([types/pose.ts]) and the photo store of
       [usePhotoCapture.ts] *)

Record CapturedPhoto : Type := {
  id : string;
  dataUrl : string;
  timestamp : Z;
  qualityScore : Q;
  pose : option Pose
}.

(** ** [CountdownTimer.tsx] *)

Module CountdownTimer.

(** [count] is the component's state; [timer] is the interval set by the
    effect, with the time at which it was set or last fired ([None]: no
    interval is running). *)
Record State : Type := { count : Z; timer : option Z }.

(** [useState(duration)] *)
Definition mount (duration : Z) : State :=
  {| count := duration; timer := None |}.

(** The effect, preceded by the cleanup of its previous run
    ([clearInterval]).  React runs it when [isActive], [onComplete] or
    [duration] changed. *)
Definition effect (duration now : Z) (isActive : bool) (c : State) : State :=
  if negb isActive then {| count := duration; timer := None |}
  else {| count := count c; timer := Some now |}.

(** The interval callback: [setCount(prev => ...)]; the boolean tells
    whether [onComplete()] was called. *)
Definition tick (duration now : Z) (c : State) : State * bool :=
  if count c <=? 1 then ({| count := duration; timer := Some now |}, true)
  else ({| count := count c - 1; timer := Some now |}, false).

(** [setInterval(..., 1000)]: the callback runs no sooner than 1000ms after
    the interval was set or last fired. *)
Definition tick_enabled (now : Z) (c : State) : bool :=
  match timer c with
  | Some t => t + 1000 <=? now
  | None => false
  end.

(** The component seen from its parent: the [isActive] prop, the state and
    the number of calls of [onComplete] so far. *)
Record Component : Type := {
  isActive : bool;
  state : State;
  completions : nat
}.

Inductive Event : Type :=
| SetActive (b : bool)   (* the parent renders with this [isActive] *)
| Rerender               (* the parent renders with a new [onComplete] *)
| Tick.                  (* the interval fires *)

Definition step (duration now : Z) (ev : Event) (k : Component)
  : option Component :=
  match ev with
  | SetActive b =>
      if Bool.eqb b (isActive k) then Some k
      else Some {| isActive := b;
                   state := effect duration now b (state k);
                   completions := completions k |}
  | Rerender =>
      Some {| isActive := isActive k;
              state := effect duration now (isActive k) (state k);
              completions := completions k |}
  | Tick =>
      if tick_enabled now (state k) then
        let (c, done) := tick duration now (state k) in
        Some {| isActive := isActive k;
                state := c;
                completions := if done then S (completions k)
                               else completions k |}
      else None
  end.

(** A run over timed events; [None] when an event is not possible (a tick
    with no interval running, or before it is due). *)
Fixpoint run (duration : Z) (tr : list (Z * Event)) (k : Component)
  : option Component :=
  match tr with
  | [] => Some k
  | (now, ev) :: tr' =>
      match step duration now ev k with
      | Some k' => run duration tr' k'
      | None => None
      end
  end.

Definition is_tick (e : Z * Event) : bool :=
  match snd e with Tick => true | _ => false end.

Definition is_set_active (e : Z * Event) : bool :=
  match snd e with SetActive _ => true | _ => false end.

(** The parent keeps [isActive] as it is during [tr]. *)
Definition steady (tr : list (Z * Event)) : bool :=
  forallb (fun e => negb (is_set_active e)) tr.

Definition ticks (tr : list (Z * Event)) : nat :=
  List.length (filter is_tick tr).

Definition mounted (duration : Z) : Component :=
  {| isActive := false; state := mount duration; completions := 0 |}.

End CountdownTimer.

(** ** [usePhotoCapture.ts]: the photo store *)

Module PhotoCapture.

Definition addPhoto (photo : CapturedPhoto) (prev : list CapturedPhoto)
  : list CapturedPhoto := prev ++ [photo].

Definition removePhoto (photoId : string) (prev : list CapturedPhoto)
  : list CapturedPhoto :=
  filter (fun p => negb (String.eqb (id p) photoId)) prev.

Definition clearPhotos (prev : list CapturedPhoto) : list CapturedPhoto := [].

(** The comparator [(a, b) => b.qualityScore - a.qualityScore]. *)
Definition compareFn (a b : CapturedPhoto) : Q :=
  (qualityScore b - qualityScore a)%Q.

(** [Array.prototype.sort] with a comparator: a stable sort; [a] is moved
    behind [b] only when [compareFn a b > 0].  For a consistent comparator
    the result of a stable sort is unique, so insertion sort stands for the
    engine's algorithm. *)
Fixpoint insert (a : CapturedPhoto) (l : list CapturedPhoto)
  : list CapturedPhoto :=
  match l with
  | [] => [a]
  | b :: l' =>
      if JS.Qltb 0 (compareFn a b) then b :: insert a l' else a :: b :: l'
  end.

Fixpoint sort (l : list CapturedPhoto) : list CapturedPhoto :=
  match l with
  | [] => []
  | a :: l' => insert a (sort l')
  end.

Definition getBestPhotos (count : Z) (capturedPhotos : list CapturedPhoto)
  : list CapturedPhoto :=
  JS.slice0 count (sort capturedPhotos).

(** The photos of [l] whose score is [sc], in the order of [l]. *)
Definition scoring (sc : Q) (l : list CapturedPhoto) : list CapturedPhoto :=
  filter (fun p => Qeq_bool (qualityScore p) sc) l.

(** Scores never increase along the list. *)
Definition descending (l : list CapturedPhoto) : Prop :=
  StronglySorted (fun a b => qualityScore b <= qualityScore a)%Q l.

End PhotoCapture.

(** ** [App.tsx] *)

Module App.

(** The three [useRef] cells. *)
Record Refs : Type := {
  lastCaptureTime : Z;
  poseStableTime : Z;
  wasCorrectPose : bool
}.

(** The handler that awaits a capture: [handleCountdownComplete] or
    [handleManualCapture]. *)
Inductive Origin : Type := Auto | Manual.

(** An [await capturePhoto(currentVideo)] that has not resumed yet: which
    handler is suspended and how the promise was settled ([None]: it was
    rejected). *)
Record Suspended : Type := {
  origin : Origin;
  outcome : option CapturedPhoto
}.

(** The [useState] cells of [App] and of [usePhotoCapture], the refs, the
    mounted [CountdownTimer] and the suspended handlers.  [currentVideo]
    tells whether a video element has been registered. *)
Record State : Type := {
  currentVideo : bool;
  currentPose : option Pose;
  isCountdownActive : bool;
  autoCapture : bool;
  capturedPhotos : list CapturedPhoto;
  isCapturing : bool;
  refs : Refs;
  countdown : CountdownTimer.State;
  suspended : list Suspended
}.

Definition duration : Z := 3.

Definition init : State :=
  {| currentVideo := false;
     currentPose := None;
     isCountdownActive := false;
     autoCapture := true;
     capturedPhotos := [];
     isCapturing := false;
     refs := {| lastCaptureTime := 0; poseStableTime := 0;
                wasCorrectPose := false |};
     countdown := CountdownTimer.mount duration;
     suspended := [] |}.

Definition setCurrentVideo (v : bool) (s : State) : State :=
  {| currentVideo := v; currentPose := currentPose s;
     isCountdownActive := isCountdownActive s; autoCapture := autoCapture s;
     capturedPhotos := capturedPhotos s; isCapturing := isCapturing s;
     refs := refs s; countdown := countdown s; suspended := suspended s |}.

Definition setCurrentPose (p : option Pose) (s : State) : State :=
  {| currentVideo := currentVideo s; currentPose := p;
     isCountdownActive := isCountdownActive s; autoCapture := autoCapture s;
     capturedPhotos := capturedPhotos s; isCapturing := isCapturing s;
     refs := refs s; countdown := countdown s; suspended := suspended s |}.

Definition setIsCountdownActive (b : bool) (s : State) : State :=
  {| currentVideo := currentVideo s; currentPose := currentPose s;
     isCountdownActive := b; autoCapture := autoCapture s;
     capturedPhotos := capturedPhotos s; isCapturing := isCapturing s;
     refs := refs s; countdown := countdown s; suspended := suspended s |}.

Definition setAutoCapture (b : bool) (s : State) : State :=
  {| currentVideo := currentVideo s; currentPose := currentPose s;
     isCountdownActive := isCountdownActive s; autoCapture := b;
     capturedPhotos := capturedPhotos s; isCapturing := isCapturing s;
     refs := refs s; countdown := countdown s; suspended := suspended s |}.

Definition setCapturedPhotos
  (f : list CapturedPhoto -> list CapturedPhoto) (s : State) : State :=
  {| currentVideo := currentVideo s; currentPose := currentPose s;
     isCountdownActive := isCountdownActive s; autoCapture := autoCapture s;
     capturedPhotos := f (capturedPhotos s); isCapturing := isCapturing s;
     refs := refs s; countdown := countdown s; suspended := suspended s |}.

Definition setIsCapturing (b : bool) (s : State) : State :=
  {| currentVideo := currentVideo s; currentPose := currentPose s;
     isCountdownActive := isCountdownActive s; autoCapture := autoCapture s;
     capturedPhotos := capturedPhotos s; isCapturing := b;
     refs := refs s; countdown := countdown s; suspended := suspended s |}.

Definition setRefs (r : Refs) (s : State) : State :=
  {| currentVideo := currentVideo s; currentPose := currentPose s;
     isCountdownActive := isCountdownActive s; autoCapture := autoCapture s;
     capturedPhotos := capturedPhotos s; isCapturing := isCapturing s;
     refs := r; countdown := countdown s; suspended := suspended s |}.

Definition setCountdown (c : CountdownTimer.State) (s : State) : State :=
  {| currentVideo := currentVideo s; currentPose := currentPose s;
     isCountdownActive := isCountdownActive s; autoCapture := autoCapture s;
     capturedPhotos := capturedPhotos s; isCapturing := isCapturing s;
     refs := refs s; countdown := c; suspended := suspended s |}.

Definition setSuspended (l : list Suspended) (s : State) : State :=
  {| currentVideo := currentVideo s; currentPose := currentPose s;
     isCountdownActive := isCountdownActive s; autoCapture := autoCapture s;
     capturedPhotos := capturedPhotos s; isCapturing := isCapturing s;
     refs := refs s; countdown := countdown s; suspended := l |}.

Definition faceKeypoints : list string :=
  ["nose"; "leftEye"; "rightEye"; "leftEar"; "rightEar"].

Definition visibleFacePoints (pose : Pose) : list string :=
  filter (fun pointName => point_visible pointName (keypoints pose))
         faceKeypoints.

Definition isGoodPose (pose : Pose) : bool :=
  4 <=? Z.of_nat (List.length (visibleFacePoints pose)).

(** The first [return] of [handlePoseDetected]. *)
Definition gate_closed (s : State) : bool :=
  negb (autoCapture s) || negb (currentVideo s) || isCapturing s
  || isCountdownActive s.

(** The second [return]: the 5 second cooldown. *)
Definition cooling_down (now : Z) (s : State) : bool :=
  now - lastCaptureTime (refs s) <? 5000.

Definition startCountdown (s : State) : State := setIsCountdownActive true s.

(** [handlePoseDetected]; the boolean tells whether [startCountdown()] was
    called. *)
Definition handlePoseDetected (now : Z) (pose : Pose) (s : State)
  : State * bool :=
  let s := setCurrentPose (Some pose) s in
  if gate_closed s then (s, false)
  else if cooling_down now s then (s, false)
  else
    let r := refs s in
    if isGoodPose pose then
      if negb (wasCorrectPose r) then
        (setRefs {| lastCaptureTime := lastCaptureTime r;
                    poseStableTime := now;
                    wasCorrectPose := true |} s, false)
      else if 2000 <? now - poseStableTime r then
        (setRefs {| lastCaptureTime := lastCaptureTime r;
                    poseStableTime := poseStableTime r;
                    wasCorrectPose := false |} (startCountdown s), true)
      else (s, false)
    else
      (setRefs {| lastCaptureTime := lastCaptureTime r;
                  poseStableTime := poseStableTime r;
                  wasCorrectPose := false |} s, false).

(** [handleCountdownComplete] up to its [await]. *)
Definition handleCountdownComplete (result : option CapturedPhoto)
  (s : State) : State :=
  let s := setIsCountdownActive false s in
  if currentVideo s then
    setSuspended (suspended s ++ [{| origin := Auto; outcome := result |}])
                 (setIsCapturing true s)
  else s.

(** [handleManualCapture] up to its [await]. *)
Definition handleManualCapture (result : option CapturedPhoto)
  (s : State) : State :=
  if negb (currentVideo s) || isCapturing s then s
  else
    setSuspended (suspended s ++ [{| origin := Manual; outcome := result |}])
                 (setIsCapturing true s).

(** The rest of either handler after its [await]: the [try] body, the
    [catch] (which only logs) and the [finally]. *)
Definition resume (now : Z) (k : Suspended) (s : State) : State :=
  let s :=
    match outcome k with
    | Some photo =>
        let s := setCapturedPhotos (PhotoCapture.addPhoto photo) s in
        match origin k with
        | Auto =>
            let r := refs s in
            setRefs {| lastCaptureTime := now;
                       poseStableTime := poseStableTime r;
                       wasCorrectPose := wasCorrectPose r |} s
        | Manual => s
        end
    | None => s
    end in
  setIsCapturing false s.

Inductive Event : Type :=
| VideoReady                                    (* [onVideoReady] *)
| PoseDetected (pose : Pose)                    (* [onPoseDetected] *)
| SetAutoCapture (checked : bool)               (* the checkbox *)
| ManualCapture (result : option CapturedPhoto) (* the button *)
| Resume                                        (* the oldest suspended handler resumes *)
| Tick (result : option CapturedPhoto)          (* the countdown interval fires *)
| Render                                        (* [App] renders again *)
| RemovePhoto (photoId : string)
| ClearPhotos.

Inductive Output : Type :=
| Trigger      (* [startCountdown()] *)
| Completed.   (* [onComplete()] *)

(** One handler call. *)
Definition handle (now : Z) (ev : Event) (s : State)
  : State * option Output :=
  match ev with
  | VideoReady => (setCurrentVideo true s, None)
  | PoseDetected pose =>
      let (s', fired) := handlePoseDetected now pose s in
      (s', if fired then Some Trigger else None)
  | SetAutoCapture checked => (setAutoCapture checked s, None)
  | ManualCapture result => (handleManualCapture result s, None)
  | Resume =>
      match suspended s with
      | [] => (s, None)
      | k :: rest => (resume now k (setSuspended rest s), None)
      end
  | Tick result =>
      let (c, done) := CountdownTimer.tick duration now (countdown s) in
      let s := setCountdown c s in
      if done then (handleCountdownComplete result s, Some Completed)
      else (s, None)
  | Render =>
      (setCountdown
         (CountdownTimer.effect duration now (isCountdownActive s)
                                (countdown s)) s, None)
  | RemovePhoto photoId =>
      (setCapturedPhotos (PhotoCapture.removePhoto photoId) s, None)
  | ClearPhotos => (setCapturedPhotos PhotoCapture.clearPhotos s, None)
  end.

(** After a handler changed [isCountdownActive], [CountdownTimer] renders
    with the new prop and its effect runs. *)
Definition commit (now : Z) (s s' : State) : State :=
  if Bool.eqb (isCountdownActive s) (isCountdownActive s') then s'
  else setCountdown
         (CountdownTimer.effect duration now (isCountdownActive s')
                                (countdown s')) s'.

Definition step (now : Z) (ev : Event) (s : State) : State * option Output :=
  let (s', out) := handle now ev s in (commit now s s', out).

(** An event that the environment can deliver in this state. *)
Definition enabled (now : Z) (ev : Event) (s : State) : bool :=
  match ev with
  | Tick _ => CountdownTimer.tick_enabled now (countdown s)
  | _ => true
  end.

Record Transition : Type := {
  pre : State;
  at_time : Z;
  event : Event;
  post : State;
  output : option Output
}.

(** The transitions of a run over timed events. *)
Fixpoint transitions (s : State) (tr : list (Z * Event)) : list Transition :=
  match tr with
  | [] => []
  | (now, ev) :: tr' =>
      let (s', out) := step now ev s in
      {| pre := s; at_time := now; event := ev; post := s'; output := out |}
      :: transitions s' tr'
  end.

(** The run is an execution: the clock does not go back and every event is
    enabled where it occurs. *)
Fixpoint valid (clock : Z) (s : State) (tr : list (Z * Event)) : bool :=
  match tr with
  | [] => true
  | (now, ev) :: tr' =>
      (clock <=? now) && enabled now ev s
      && valid now (fst (step now ev s)) tr'
  end.

Definition fired (t : Transition) : bool :=
  match output t with Some Trigger => true | _ => false end.

Definition completed (t : Transition) : bool :=
  match output t with Some Completed => true | _ => false end.

(** The transition is a pose sample that passed both [return]s of
    [handlePoseDetected]. *)
Definition processed (t : Transition) : bool :=
  match event t with
  | PoseDetected _ =>
      negb (gate_closed (pre t)) && negb (cooling_down (at_time t) (pre t))
  | _ => false
  end.

Definition good (t : Transition) : bool :=
  match event t with
  | PoseDetected pose => isGoodPose pose
  | _ => false
  end.

(** The hold that ends in the trigger [T], the [k]-th transition: it
    started at the [j]-th transition, a processed good sample that found
    the gate idle; since then no trigger was emitted and every processed
    sample was good. *)
Definition hold_from (l : list Transition) (j k : nat) (T : Transition)
  : Prop :=
  exists S,
    (j < k)%nat /\ nth_error l j = Some S
    /\ processed S = true /\ good S = true /\ fired S = false
    /\ wasCorrectPose (refs (pre S)) = false
    /\ poseStableTime (refs (pre T)) = at_time S
    /\ 2000 < at_time T - at_time S
    /\ forall i M, (j < i < k)%nat -> nth_error l i = Some M ->
         fired M = false /\ (processed M = true -> good M = true).

(** What a run has established when the clock shows [clock] and the
    latest trigger, if any, was emitted at [last]: the countdown that the
    trigger started is still running, with one second gone per tick, or
    it ended three seconds or more after the trigger and a hold, if one
    is in progress, started after that. *)
Definition paced (clock : Z) (last : option Z) (s : State) : Prop :=
  match last with
  | None =>
      isCountdownActive s = false
      /\ countdown s = CountdownTimer.mount duration
  | Some t1 =>
      t1 <= clock
      /\ if isCountdownActive s then
           wasCorrectPose (refs s) = false
           /\ 1 <= CountdownTimer.count (countdown s) <= 3
           /\ exists t,
                CountdownTimer.timer (countdown s) = Some t /\ t <= clock
                /\ t1 + (3 - CountdownTimer.count (countdown s)) * 1000 <= t
         else
           countdown s = CountdownTimer.mount duration
           /\ t1 + 3000 <= clock
           /\ (wasCorrectPose (refs s) = true ->
               t1 + 3000 <= poseStableTime (refs s))
  end.

(** The time of the latest trigger after a transition. *)
Definition latest (last : option Z) (now : Z) (out : option Output)
  : option Z :=
  match out with
  | Some Trigger => Some now
  | _ => last
  end.

(** The times at which the gate called [startCountdown()]. *)
Definition triggers (l : list Transition) : list Z :=
  map at_time (filter fired l).

End App.

(** ** [usePhotoCapture.ts]: [calculatePhotoQuality] *)

Module PhotoQuality.

(** [imageData.data]: a [Uint8ClampedArray], four bytes per pixel. *)
Definition PixelData : Type := list Z.

(** [data[i]] inside a sum: a read past the end is [undefined], which the
    addition turns into [NaN]. *)
Definition get (data : PixelData) (i : nat) : JS.number :=
  match nth_error data i with
  | Some v => JS.ofZ v
  | None => JS.NaN
  end.

(** [(data[i] + data[i + 1] + data[i + 2]) / 3] *)
Definition brightnessAt (data : PixelData) (i : nat) : JS.number :=
  JS.div (JS.add (JS.add (get data i) (get data (i + 1))) (get data (i + 2)))
         (JS.ofZ 3).

(** The body of the [for] loop on [(totalBrightness, edgeStrength)]. *)
Definition body (data : PixelData) (acc : JS.number * JS.number) (i : nat)
  : JS.number * JS.number :=
  let (totalBrightness, edgeStrength) := acc in
  let brightness := brightnessAt data i in
  let totalBrightness := JS.add totalBrightness brightness in
  if Z.of_nat i <? Z.of_nat (List.length data) - 4 then
    let nextBrightness := brightnessAt data (i + 4) in
    (totalBrightness,
     JS.add edgeStrength (JS.abs (JS.sub brightness nextBrightness)))
  else (totalBrightness, edgeStrength).

(** The values of [i] in [for (let i = 0; i < data.length; i += 4)]. *)
Definition indices (len : nat) : list nat :=
  map (fun k => 4 * k)%nat (seq 0 ((len + 3) / 4)).

Definition scan (data : PixelData) : JS.number * JS.number :=
  fold_left (body data) (indices (List.length data)) (JS.ofZ 0, JS.ofZ 0).

(** [data.length / 4] *)
Definition pixelCount (data : PixelData) : JS.number :=
  JS.div (JS.ofZ (Z.of_nat (List.length data))) (JS.ofZ 4).

Definition avgBrightness (data : PixelData) : JS.number :=
  JS.div (fst (scan data)) (pixelCount data).

Definition normalizedEdgeStrength (data : PixelData) : JS.number :=
  JS.div (snd (scan data)) (pixelCount data).

Definition brightnessScore (data : PixelData) : JS.number :=
  JS.sub (JS.ofZ 1)
         (JS.div (JS.abs (JS.sub (avgBrightness data) (JS.ofZ 128)))
                 (JS.ofZ 128)).

Definition sharpnessScore (data : PixelData) : JS.number :=
  JS.min (JS.div (normalizedEdgeStrength data) (JS.ofZ 20)) (JS.ofZ 1).

(** [calculatePhotoQuality] on the buffer read from the canvas. *)
Definition calculatePhotoQuality (data : PixelData) : JS.number :=
  JS.div (JS.add (brightnessScore data) (sharpnessScore data)) (JS.ofZ 2).

(** A buffer of [n] whole pixels, as [getImageData] returns it. *)
Definition pixels (n : nat) (data : PixelData) : Prop :=
  (List.length data = 4 * n)%nat.

(** Every pixel of the buffer has the colour [(r, g, b)], whatever its
    alpha byte. *)
Definition uniform (r g b : Z) (data : PixelData) : Prop :=
  forall k, (4 * k < List.length data)%nat ->
    nth_error data (4 * k) = Some r
    /\ nth_error data (4 * k + 1) = Some g
    /\ nth_error data (4 * k + 2) = Some b.

(** The brightness of the [k]-th pixel, as a rational. *)
Definition pixelBrightness (data : PixelData) (k : nat) : Q :=
  (inject_Z (nth (4 * k) data 0) + inject_Z (nth (4 * k + 1) data 0)
   + inject_Z (nth (4 * k + 2) data 0)) / 3.

(** The contribution of the [k]-th pixel to the edge strength: nothing for
    the last pixel. *)
Definition edgeTerm (data : PixelData) (k : nat) : Q :=
  if (4 * k + 4 <? List.length data)%nat
  then Qabs (pixelBrightness data k - pixelBrightness data (k + 1))
  else 0.

(** [f a + f (a + 1) + ... + f (a + m - 1)] *)
Fixpoint sumQ (f : nat -> Q) (a m : nat) : Q :=
  match m with
  | O => 0
  | S m' => f a + sumQ f (S a) m'
  end.

End PhotoQuality.

(** ** [LayoutGenerator.tsx]: [generateLayout] *)

Module LayoutGenerator.

Definition pageWidth : Z := 2480.
Definition pageHeight : Z := 3508.
Definition photoWidth : Z := 413.
Definition photoHeight : Z := 531.

(** [Math.floor] of a quotient of positive integers. *)
Definition cols : Z := pageWidth / (photoWidth + 60).
Definition rows : Z := pageHeight / (photoHeight + 60).
Definition totalSlots : Z := cols * rows.

Definition margin : Z := 60.

Definition startX : Q :=
  inject_Z (pageWidth - (cols * photoWidth + (cols - 1) * margin)) / 2.
Definition startY : Q :=
  inject_Z (pageHeight - (rows * photoHeight + (rows - 1) * margin)) / 2.

(** The calls on the 2D context that leave a mark on the canvas. *)
Inductive DrawOp : Type :=
| FillRect (fillStyle : string) (x y w h : Q)
| DrawImage (src : string) (x y w h : Q)
| StrokeRect (strokeStyle : string) (lineWidth : Z) (x y w h : Q)
| DashedLine (strokeStyle : string) (x1 y1 x2 y2 : Q).

(** The [onload] callback of the image of [photo], the [index]-th of the
    mapped array. *)
Definition drawPhoto (photo : CapturedPhoto) (index : Z) : list DrawOp :=
  let row := index / cols in
  let col := index mod cols in
  let x := (startX + inject_Z col * inject_Z (photoWidth + margin))%Q in
  let y := (startY + inject_Z row * inject_Z (photoHeight + margin))%Q in
  [ DrawImage (dataUrl photo) x y (inject_Z photoWidth) (inject_Z photoHeight);
    StrokeRect "#ccc" 2 x y (inject_Z photoWidth) (inject_Z photoHeight) ].

(** [for (let i = 1; i < n; i++)] *)
Definition from1 (n : Z) : list Z :=
  map (fun k => Z.of_nat k + 1) (seq 0 (Z.to_nat (n - 1))).

Definition verticalGuide (i : Z) : DrawOp :=
  let x := (startX + inject_Z i * inject_Z (photoWidth + margin)
            - inject_Z margin / 2)%Q in
  DashedLine "#ddd" x 0 x (inject_Z pageHeight).

Definition horizontalGuide (i : Z) : DrawOp :=
  let y := (startY + inject_Z i * inject_Z (photoHeight + margin)
            - inject_Z margin / 2)%Q in
  DashedLine "#ddd" 0 y (inject_Z pageWidth) y.

(** [generateLayout]: the operations performed on the canvas, [None] when
    the function returns before drawing.  [canvas] and [ctx] tell whether
    [canvasRef.current] and [canvas.getContext('2d')] are non-null; every
    image is assumed to load. *)
Definition generateLayout (canvas ctx : bool) (photos : list CapturedPhoto)
  : option (list DrawOp) :=
  if negb canvas || (Z.of_nat (List.length photos) =? 0) then None
  else if negb ctx then None
  else
    Some (FillRect "white" 0 0 (inject_Z pageWidth) (inject_Z pageHeight)
          :: List.concat (JS.mapi drawPhoto (JS.slice0 totalSlots photos))
          ++ map verticalGuide (from1 cols)
          ++ map horizontalGuide (from1 rows)).

(** The [drawImage] call of [drawPhoto]. *)
Definition imageOf (photo : CapturedPhoto) (index : Z) : DrawOp :=
  hd (FillRect "" 0 0 0 0) (drawPhoto photo index).

(** The images on the canvas, in the order of the operations. *)
Fixpoint images (ops : list DrawOp) : list DrawOp :=
  match ops with
  | [] => []
  | DrawImage src x y w h :: ops' => DrawImage src x y w h :: images ops'
  | _ :: ops' => images ops'
  end.

(** The position of the slot in row [row] and column [col] of the page. *)
Definition slotX (col : Z) : Q := (175 # 2) + inject_Z (473 * col).
Definition slotY (row : Z) : Q := (613 # 2) + inject_Z (591 * row).

(** [op] draws the image [src] stretched over the slot at [(row, col)]. *)
Definition fills_slot (op : DrawOp) (src : string) (row col : Z) : Prop :=
  match op with
  | DrawImage src' x y w h =>
      src' = src /\ x == slotX col /\ y == slotY row /\ w == 413 /\ h == 531
  | _ => False
  end.

End LayoutGenerator.

(** ** Sample data *)

Module Samples.

Definition kp (name : string) (px py sc : Q) : Keypoint :=
  {| part := name; position := {| x := px; y := py |}; score := sc |}.

(** A centred, level pose with every facial landmark clearly visible. *)
Definition passportPose : Pose :=
  {| keypoints :=
       [ kp "nose" 320 200 (9 # 10); kp "leftEye" 340 180 (9 # 10);
         kp "rightEye" 300 180 (9 # 10); kp "leftEar" 360 190 (8 # 10);
         kp "rightEar" 280 190 (8 # 10);
         kp "leftShoulder" 420 330 (9 # 10);
         kp "rightShoulder" 220 335 (9 # 10) ];
     pose_score := 9 # 10 |}.

(** The same face with the left shoulder out of the keypoint list. *)
Definition noLeftShoulder : Pose :=
  {| keypoints :=
       [ kp "nose" 320 200 (9 # 10); kp "leftEye" 340 180 (9 # 10);
         kp "rightEye" 300 180 (9 # 10); kp "leftEar" 360 190 (8 # 10);
         kp "rightEar" 280 190 (8 # 10);
         kp "rightShoulder" 220 335 (9 # 10) ];
     pose_score := 9 # 10 |}.

(** Only two facial landmarks above the threshold. *)
Definition turnedAway : Pose :=
  {| keypoints :=
       [ kp "nose" 320 200 (2 # 10); kp "leftEye" 340 180 (6 # 10);
         kp "rightEye" 300 180 (1 # 10); kp "leftEar" 360 190 (7 # 10);
         kp "rightEar" 280 190 (1 # 2);
         kp "leftShoulder" 420 330 (9 # 10);
         kp "rightShoulder" 220 335 (9 # 10) ];
     pose_score := 4 # 10 |}.

Definition photo (name : string) (sc : Q) : CapturedPhoto :=
  {| id := name; dataUrl := "data:image/jpeg;base64," ++ name;
     timestamp := 0; qualityScore := sc; pose := None |}.

(** Two mid-gray pixels and two black pixels. *)
Definition grayFrame : PhotoQuality.PixelData :=
  [128; 128; 128; 255; 128; 128; 128; 255].


(** The collection with scores 0.2, 0.9 and 0.5. *)
Definition threePhotos : list CapturedPhoto :=
  [photo "a" (2 # 10); photo "b" (9 # 10); photo "c" (5 # 10)].

(** A session: the pose is held, the countdown runs, the photo is taken,
    and the pose is held again after the cooldown. *)
Definition autoSession : list (Z * App.Event) :=
  [ (1000000, App.VideoReady);
    (1000100, App.PoseDetected passportPose);
    (1002200, App.PoseDetected passportPose);
    (1003200, App.Tick None);
    (1004200, App.Tick None);
    (1005200, App.Tick (Some (photo "1005200" (7 # 10))));
    (1005201, App.Resume);
    (1010201, App.PoseDetected passportPose);
    (1012202, App.PoseDetected passportPose) ].

(** A session: the pose is held, the user takes a photo with the button,
    and the pose is still held. *)
Definition manualSession : list (Z * App.Event) :=
  [ (1000000, App.VideoReady);
    (1000100, App.PoseDetected passportPose);
    (1001000, App.ManualCapture (Some (photo "1001000" (7 # 10))));
    (1001001, App.Resume);
    (1002200, App.PoseDetected passportPose) ].

(** Three ticks of the countdown, with a render of the parent in between. *)
Definition threeTicks : list (Z * CountdownTimer.Event) :=
  [ (1000, CountdownTimer.Tick);
    (1500, CountdownTimer.Rerender);
    (2500, CountdownTimer.Tick);
    (3500, CountdownTimer.Tick) ].

Definition twoTicks : list (Z * CountdownTimer.Event) :=
  [ (1000, CountdownTimer.Tick); (2000, CountdownTimer.Tick) ].

End Samples.

(** ** [CameraView.tsx]: the pose overlay *)

Module CameraView.

(** What [drawPose] leaves on the canvas: a filled circle of radius 6 for a
    keypoint, a stroke of width 2 for a connection. *)
Inductive Mark : Type :=
| Dot (fillStyle : string) (cx cy : Q)
| Line (strokeStyle : string) (x1 y1 x2 y2 : Q).

(** [poseState.isCorrectPose ? '#10B981' : '#F59E0B'] *)
Definition poseColor (isCorrectPose : bool) : string :=
  if isCorrectPose then "#10B981" else "#F59E0B".

Definition connections : list (string * string) :=
  [ ("nose", "leftEye"); ("nose", "rightEye");
    ("leftEye", "leftEar"); ("rightEye", "rightEar");
    ("leftShoulder", "rightShoulder");
    ("leftShoulder", "leftElbow"); ("rightShoulder", "rightElbow") ].

(** The body of [currentPose.keypoints.forEach]. *)
Definition drawKeypoint (isCorrectPose : bool) (keypoint : Keypoint)
  : list Mark :=
  if JS.Qltb (3 # 10) (score keypoint) then
    [Dot (poseColor isCorrectPose)
         (x (position keypoint)) (y (position keypoint))]
  else [].

(** The body of [connections.forEach]. *)
Definition drawConnection (isCorrectPose : bool) (kps : list Keypoint)
  (c : string * string) : list Mark :=
  match find_part (fst c) kps, find_part (snd c) kps with
  | Some startPoint, Some endPoint =>
      if JS.Qltb (3 # 10) (score startPoint)
         && JS.Qltb (3 # 10) (score endPoint)
      then [Line (poseColor isCorrectPose)
                 (x (position startPoint)) (y (position startPoint))
                 (x (position endPoint)) (y (position endPoint))]
      else []
  | _, _ => []
  end.

(** [drawPose]: the marks on the cleared canvas, [None] when the function
    returns before drawing.  [canvas], [video] and [ctx] tell whether the
    two refs and the 2D context are non-null. *)
Definition drawPose (canvas video ctx : bool) (currentPose : option Pose)
  (isCorrectPose : bool) : option (list Mark) :=
  match currentPose with
  | None => None
  | Some p =>
      if negb canvas || negb video then None
      else if negb ctx then None
      else Some (flat_map (drawKeypoint isCorrectPose) (keypoints p)
                 ++ flat_map (drawConnection isCorrectPose (keypoints p))
                             connections)%list
  end.

End CameraView.

(** ** [PhotoGrid.tsx] and what [App] hands to its children *)

Module PhotoGrid.

(** [bestPhotos.some(bp => bp.id === photo.id)] *)
Definition isBestPhoto (bestPhotos : list CapturedPhoto)
  (photo : CapturedPhoto) : bool :=
  existsb (fun bp => String.eqb (id bp) (id photo)) bestPhotos.

End PhotoGrid.

Module AppView.

(** [Array.prototype.slice(start)] for an integer [start]: a negative
    [start] counts from the end of the array. *)
Definition slice_from {A : Type} (start : Z) (l : list A) : list A :=
  let len := Z.of_nat (List.length l) in
  let k := if start <? 0 then Z.max (len + start) 0 else Z.min start len in
  skipn (Z.to_nat k) l.

(** [const bestPhotos = getBestPhotos(4)] *)
Definition bestPhotos (capturedPhotos : list CapturedPhoto)
  : list CapturedPhoto :=
  PhotoCapture.getBestPhotos 4 capturedPhotos.

(** [capturedPhotos.slice(-4)], the photos of the "Recent Captures" grid. *)
Definition recentCaptures (capturedPhotos : list CapturedPhoto)
  : list CapturedPhoto :=
  slice_from (-4) capturedPhotos.

(** [<LayoutGenerator photos={bestPhotos} />] *)
Definition layout (canvas ctx : bool) (capturedPhotos : list CapturedPhoto)
  : option (list LayoutGenerator.DrawOp) :=
  LayoutGenerator.generateLayout canvas ctx (bestPhotos capturedPhotos).

End AppView.

(** ** [useCamera.ts]: the message shown for a camera error *)

Module Camera.

(** The value caught by [catch (err)]: an [Error] with its [name] and
    [message], or anything else. *)
Inductive Thrown : Type :=
| ErrorObject (name message : string)
| OtherValue.

(** [hay.includes(needle)] *)
Fixpoint includes (needle hay : string) : bool :=
  String.prefix needle hay
  || match hay with
     | EmptyString => false
     | String _ rest => includes needle rest
     end.

(** [errorMessage] at the end of the [catch] block of [startCamera]. *)
Definition startCameraMessage (err : Thrown) : string :=
  match err with
  | OtherValue => "Failed to access camera."
  | ErrorObject name message =>
      if String.eqb name "NotAllowedError" then
        "Camera access denied. Please allow camera permissions and refresh the page."
      else if String.eqb name "NotFoundError" then
        "No camera found. Please connect a camera and try again."
      else if String.eqb name "NotReadableError" then
        "Camera is already in use by another application. Please close other apps using the camera and try again."
      else if String.eqb name "OverconstrainedError" then
        "Camera constraints could not be satisfied. Please try with a different camera."
      else if String.eqb name "SecurityError" then
        "Camera access blocked due to security restrictions. Please ensure you're using HTTPS or localhost."
      else if String.eqb name "AbortError" then
        "Camera access was aborted. Please try again."
      else if includes "Device in use" message
              || includes "device in use" message then
        "Camera is currently being used by another application. Please close other apps using the camera (like video calls, other browser tabs, or camera apps) and try again."
      else "Camera error: " ++ message
  end.

(** [errorMessage] at the end of the [catch] block of [retryCamera]. *)
Definition retryCameraMessage (err : Thrown) : string :=
  match err with
  | ErrorObject name message =>
      if String.eqb name "NotAllowedError" then
        "Camera access denied. Please allow camera permissions and refresh the page."
      else if String.eqb name "NotFoundError" then
        "No camera found. Please connect a camera and try again."
      else if String.eqb name "NotReadableError" then
        "Camera is already in use by another application. Please close other apps using the camera and try again."
      else if String.eqb name "OverconstrainedError" then
        "Camera constraints could not be satisfied. Please try with a different camera."
      else if String.eqb name "SecurityError" then
        "Camera access blocked due to security restrictions. Please ensure you're using HTTPS or localhost."
      else if String.eqb name "AbortError" then
        "Camera access was aborted. Please try again."
      else if includes "Device in use" message
              || includes "device in use" message then
        "Camera is currently being used by another application. Please close other apps using the camera (like video calls, other browser tabs, or camera apps) and try again."
      else "Camera error: " ++ message
  | OtherValue => "Failed to access camera."
  end.

End Camera.

(** ** Runs of the countdown and of [App] *)

Module Runs.

(** Every event of [tr] comes less than 1000ms after the one before it, the
    first one less than 1000ms after [t]. *)
Fixpoint dense (t : Z) (tr : list (Z * CountdownTimer.Event)) : bool :=
  match tr with
  | [] => true
  | (now, _) :: tr' => (now <? t + 1000) && dense now tr'
  end.

(** The state of [App] after the events of [tr]. *)
Definition final (s : App.State) (tr : list (Z * App.Event)) : App.State :=
  fold_left (fun s e => fst (App.step (fst e) (snd e) s)) tr s.

Definition is_resume (e : Z * App.Event) : bool :=
  match snd e with App.Resume => true | _ => false end.

(** The user removes no photo during [tr]. *)
Definition keeps_photos (tr : list (Z * App.Event)) : bool :=
  forallb (fun e => match snd e with
                    | App.RemovePhoto _ | App.ClearPhotos => false
                    | _ => true
                    end) tr.

(** The checkbox is not ticked during [tr]. *)
Definition stays_off (tr : list (Z * App.Event)) : bool :=
  forallb (fun e => match snd e with
                    | App.SetAutoCapture true => false
                    | _ => true
                    end) tr.

(** The photos of [l] with the id [i], in the order of [l]. *)
Definition with_id (i : string) (l : list CapturedPhoto)
  : list CapturedPhoto :=
  filter (fun p => String.eqb (id p) i) l.

End Runs.

(** ** More sample data *)

Module Fixtures.

(** Nose and eyes are seen, the ears are not. *)
Definition faceOnly : Pose :=
  {| keypoints :=
       [ Samples.kp "nose" 320 200 (9 # 10);
         Samples.kp "leftEye" 340 180 (8 # 10);
         Samples.kp "rightEye" 300 180 (8 # 10);
         Samples.kp "leftEar" 360 190 (2 # 10);
         Samples.kp "rightEar" 280 190 (1 # 10) ];
     pose_score := 5 # 10 |}.

(** A frame of two pixels, one dark and one bright. *)
Definition twoTone : PhotoQuality.PixelData :=
  [10; 20; 30; 255; 200; 220; 240; 255].

(** The same colours with other alpha bytes. *)
Definition twoToneFaded : PhotoQuality.PixelData :=
  [10; 20; 30; 0; 200; 220; 240; 17].

(** Six photos; the two scoring 0.5 were taken in this order. *)
Definition sixPhotos : list CapturedPhoto :=
  [ Samples.photo "p1" (2 # 10); Samples.photo "p2" (9 # 10);
    Samples.photo "p3" (5 # 10); Samples.photo "p4" (7 # 10);
    Samples.photo "p5" (5 # 10); Samples.photo "p6" (1 # 10) ].

(** The parent renders every 900ms after the activation at 0. *)
Definition busyParent : list (Z * CountdownTimer.Event) :=
  [ (900, CountdownTimer.Rerender); (1800, CountdownTimer.Rerender);
    (2700, CountdownTimer.Rerender); (3600, CountdownTimer.Rerender) ].

(** The countdown component just after its activation at 0. *)
Definition activated (duration : Z) : CountdownTimer.Component :=
  {| CountdownTimer.isActive := true;
     CountdownTimer.state :=
       {| CountdownTimer.count := duration;
          CountdownTimer.timer := Some 0 |};
     CountdownTimer.completions := 0 |}.

(** [Samples.autoSession] up to the completion of the countdown, and what
    follows the resumed capture. *)
Definition beforeResume : App.State :=
  Runs.final App.init (firstn 6 Samples.autoSession).

Definition afterResume : list (Z * App.Event) :=
  skipn 7 Samples.autoSession.

(** The video is ready and the user has unticked the checkbox. *)
Definition autoOff : App.State :=
  Runs.final App.init
    [(1000000, App.VideoReady); (1000050, App.SetAutoCapture false)].

(** The pose is held for more than four seconds. *)
Definition longHold : list (Z * App.Event) :=
  [ (1000100, App.PoseDetected Samples.passportPose);
    (1002200, App.PoseDetected Samples.passportPose);
    (1004300, App.PoseDetected Samples.passportPose) ].

(** The button is pressed and the capture is in flight. *)
Definition buttonPressed : list (Z * App.Event) :=
  [ (1000000, App.VideoReady); (1000100, App.ManualCapture None) ].

End Fixtures.

(** * Properties *)

(** ** Pose quality *)

Lemma find_part_absent (name : string) (kps : list Keypoint) :
  ~ In name (map part kps) -> find_part name kps = None.
Proof.
  unfold find_part. induction kps as [|k kps IH]; simpl; intros H.
  - reflexivity.
  - destruct (String.eqb_spec (part k) name) as [E|E].
    + exfalso. apply H. now left.
    + apply IH. intros HI. apply H. now right.
Qed.

(** C4: with fewer than three facial landmarks scoring above 0.5 the verdict
    is incorrect, with confidence 0 and the generic prompt. *)
Theorem evaluatePoseQuality_few_face_points (pose : Pose) :
  (List.length (PoseDetection.visibleFacePoints (keypoints pose)) < 3)%nat ->
  let v := PoseDetection.evaluatePoseQuality pose in
  PoseDetection.isCorrect v = false
  /\ PoseDetection.confidence v = 0%Q
  /\ PoseDetection.message v = "Position yourself in the frame".
Proof.
  intros H v. subst v. unfold PoseDetection.evaluatePoseQuality.
  destruct (Z.leb_spec 3
    (Z.of_nat (List.length (PoseDetection.visibleFacePoints (keypoints pose)))))
    as [L|L].
  - lia.
  - simpl. repeat split.
Qed.

Lemma evaluatePoseQuality_few_face_points_witness :
  (List.length
     (PoseDetection.visibleFacePoints (keypoints Samples.turnedAway)) < 3)%nat
  /\ PoseDetection.isCorrect
       (PoseDetection.evaluatePoseQuality Samples.turnedAway) = false.
Proof.
  assert (H : (List.length
     (PoseDetection.visibleFacePoints (keypoints Samples.turnedAway)) < 3)%nat)
    by (vm_compute; lia).
  split; [exact H|].
  exact (proj1 (evaluatePoseQuality_few_face_points Samples.turnedAway H)).
Defined.

(** C10: when the nose or either shoulder is missing from the keypoint list
    the verdict is incorrect and the message is the generic prompt, however
    many facial landmarks are visible. *)
Theorem evaluatePoseQuality_missing_anchor (pose : Pose) :
  ~ In "nose" (map part (keypoints pose))
  \/ ~ In "leftShoulder" (map part (keypoints pose))
  \/ ~ In "rightShoulder" (map part (keypoints pose)) ->
  let v := PoseDetection.evaluatePoseQuality pose in
  PoseDetection.isCorrect v = false
  /\ PoseDetection.message v = "Position yourself in the frame".
Proof.
  intros H v. subst v. unfold PoseDetection.evaluatePoseQuality.
  cbv zeta.
  destruct (3 <=? _); [|split; reflexivity].
  destruct H as [H|[H|H]]; apply find_part_absent in H; rewrite H.
  - destruct (find_part "leftShoulder" (keypoints pose)),
             (find_part "rightShoulder" (keypoints pose));
      split; reflexivity.
  - split; reflexivity.
  - destruct (find_part "leftShoulder" (keypoints pose)); split; reflexivity.
Qed.

Lemma evaluatePoseQuality_missing_anchor_witness :
  (List.length
     (PoseDetection.visibleFacePoints (keypoints Samples.noLeftShoulder)) = 5)%nat
  /\ (PoseDetection.confidence
        (PoseDetection.evaluatePoseQuality Samples.noLeftShoulder) == 1)%Q
  /\ PoseDetection.isCorrect
       (PoseDetection.evaluatePoseQuality Samples.noLeftShoulder) = false
  /\ PoseDetection.message
       (PoseDetection.evaluatePoseQuality Samples.noLeftShoulder)
     = "Position yourself in the frame".
Proof.
  split; [reflexivity|]. split; [reflexivity|].
  apply (evaluatePoseQuality_missing_anchor Samples.noLeftShoulder).
  right; left. simpl. intros H.
  repeat (destruct H as [H|H]; [discriminate H|]). exact H.
Defined.

(** ** Arithmetic on JavaScript numbers *)

Section NumberFacts.

Import JS.

Lemma is_num_ext a p q : is_num a p -> p == q -> is_num a q.
Proof. destruct a; simpl; try tauto. intros H E. now rewrite H. Qed.

Lemma is_num_ofZ z : is_num (ofZ z) (inject_Z z).
Proof. simpl. reflexivity. Qed.

Lemma is_num_add a b p q :
  is_num a p -> is_num b q -> is_num (add a b) (p + q).
Proof.
  destruct a, b; simpl; try tauto. intros Ha Hb. now rewrite Ha, Hb.
Qed.

Lemma is_num_sub a b p q :
  is_num a p -> is_num b q -> is_num (sub a b) (p - q).
Proof.
  destruct a, b; simpl; try tauto. intros Ha Hb. now rewrite Ha, Hb.
Qed.

Lemma is_num_abs a p : is_num a p -> is_num (abs a) (Qabs p).
Proof. destruct a; simpl; try tauto. intros Ha. now rewrite Ha. Qed.

Lemma Qis0_false q : ~ q == 0 -> Qis0 q = false.
Proof.
  intros H. unfold Qis0. destruct (Qeq_bool q 0) eqn:E; [|reflexivity].
  apply Qeq_bool_iff in E. contradiction.
Qed.

Lemma is_num_div a b p q :
  is_num a p -> is_num b q -> ~ q == 0 -> is_num (div a b) (p / q).
Proof.
  destruct a as [u| | |], b as [v| | |]; simpl; try tauto.
  intros Ha Hb Hq. rewrite Qis0_false.
  - simpl. now rewrite Ha, Hb.
  - now rewrite Hb.
Qed.

Lemma is_num_min a b p q :
  is_num a p -> is_num b q -> is_num (min a b) (Qmin p q).
Proof.
  destruct a, b; simpl; try tauto. intros Ha Hb. now rewrite Ha, Hb.
Qed.


End NumberFacts.

(** ** Photo quality *)

Section PhotoQualityFacts.

Import PhotoQuality.

Variable data : PixelData.
Variable n : nat.
Hypothesis Hlen : pixels n data.

Lemma get_in_range i :
  (i < 4 * n)%nat -> JS.is_num (get data i) (inject_Z (nth i data 0)).
Proof.
  intros Hi. unfold get.
  destruct (nth_error data i) as [v|] eqn:E.
  - rewrite (nth_error_nth _ _ _ E). apply is_num_ofZ.
  - apply nth_error_None in E. unfold pixels in Hlen. lia.
Qed.

Lemma brightnessAt_pixel k :
  (k < n)%nat ->
  JS.is_num (brightnessAt data (4 * k)) (pixelBrightness data k).
Proof.
  intros Hk. unfold brightnessAt, pixelBrightness.
  apply is_num_div; [| apply is_num_ofZ | discriminate].
  repeat apply is_num_add; apply get_in_range; lia.
Qed.

Lemma body_pixel T E t e k :
  (k < n)%nat -> JS.is_num T t -> JS.is_num E e ->
  JS.is_num (fst (body data (T, E) (4 * k))) (t + pixelBrightness data k)
  /\ JS.is_num (snd (body data (T, E) (4 * k))) (e + edgeTerm data k).
Proof.
  intros Hk HT HE. unfold body, edgeTerm. unfold pixels in Hlen.
  destruct (Z.ltb_spec (Z.of_nat (4 * k)) (Z.of_nat (List.length data) - 4))
    as [L|L];
    destruct (Nat.ltb_spec (4 * k + 4) (List.length data)) as [L'|L'];
    try lia; cbn [fst snd].
  - split.
    + apply is_num_add; [exact HT | now apply brightnessAt_pixel].
    + apply is_num_add; [exact HE|]. apply is_num_abs, is_num_sub.
      * now apply brightnessAt_pixel.
      * replace (4 * k + 4)%nat with (4 * (k + 1))%nat by lia.
        apply brightnessAt_pixel. lia.
  - split.
    + apply is_num_add; [exact HT | now apply brightnessAt_pixel].
    + apply (is_num_ext _ _ _ HE). ring.
Qed.

Lemma fold_body_pixels m : forall a T E t e,
  (a + m <= n)%nat -> JS.is_num T t -> JS.is_num E e ->
  let r := fold_left (body data) (map (fun k => 4 * k)%nat (seq a m)) (T, E) in
  JS.is_num (fst r) (t + sumQ (pixelBrightness data) a m)
  /\ JS.is_num (snd r) (e + sumQ (edgeTerm data) a m).
Proof.
  induction m as [|m IH]; intros a T E t e Ha HT HE;
    cbn [fold_left map seq sumQ fst snd].
  - split; [apply (is_num_ext _ _ _ HT) | apply (is_num_ext _ _ _ HE)]; ring.
  - destruct (body_pixel T E t e a) as [H1 H2]; [lia|exact HT|exact HE|].
    destruct (body data (T, E) (4 * a)) as [T' E'] eqn:B.
    cbn [fst snd] in H1, H2.
    destruct (IH (S a) T' E' _ _ ltac:(lia) H1 H2) as [I1 I2].
    split; [apply (is_num_ext _ _ _ I1) | apply (is_num_ext _ _ _ I2)]; ring.
Qed.

Lemma indices_pixels : indices (List.length data) = map (fun k => 4 * k)%nat (seq 0 n).
Proof.
  unfold indices. unfold pixels in Hlen. rewrite Hlen.
  replace ((4 * n + 3) / 4)%nat with n; [reflexivity|].
  apply Nat.div_unique with (r := 3%nat); lia.
Qed.

(** The loop computes the sums of the specification. *)
Lemma scan_pixels :
  JS.is_num (fst (scan data)) (sumQ (pixelBrightness data) 0 n)
  /\ JS.is_num (snd (scan data)) (sumQ (edgeTerm data) 0 n).
Proof.
  unfold scan. rewrite indices_pixels.
  destruct (fold_body_pixels n 0%nat (JS.ofZ 0) (JS.ofZ 0) 0 0) as [H1 H2];
    [lia | apply is_num_ofZ | apply is_num_ofZ |].
  split; [apply (is_num_ext _ _ _ H1) | apply (is_num_ext _ _ _ H2)]; ring.
Qed.

Hypothesis Hpos : (0 < n)%nat.

Lemma pixelCount_pixels : JS.is_num (pixelCount data) (inject_Z (Z.of_nat n)).
Proof.
  unfold pixelCount. unfold pixels in Hlen. rewrite Hlen.
  eapply is_num_ext.
  - apply is_num_div; [apply is_num_ofZ | apply is_num_ofZ | discriminate].
  - rewrite Nat2Z.inj_mul, inject_Z_mult. simpl (Z.of_nat 4). field.
Qed.

Lemma pixel_count_nonzero : ~ inject_Z (Z.of_nat n) == 0.
Proof.
  intros H. unfold Qeq in H. simpl in H. lia.
Qed.

Lemma avgBrightness_pixels :
  JS.is_num (avgBrightness data)
            (sumQ (pixelBrightness data) 0 n / inject_Z (Z.of_nat n)).
Proof.
  unfold avgBrightness.
  apply is_num_div;
    [apply scan_pixels | apply pixelCount_pixels | apply pixel_count_nonzero].
Qed.

Lemma normalizedEdgeStrength_pixels :
  JS.is_num (normalizedEdgeStrength data)
            (sumQ (edgeTerm data) 0 n / inject_Z (Z.of_nat n)).
Proof.
  unfold normalizedEdgeStrength.
  apply is_num_div;
    [apply scan_pixels | apply pixelCount_pixels | apply pixel_count_nonzero].
Qed.

Lemma brightnessScore_pixels :
  JS.is_num (brightnessScore data)
    (1 - Qabs (sumQ (pixelBrightness data) 0 n / inject_Z (Z.of_nat n) - 128)
         / 128).
Proof.
  unfold brightnessScore.
  apply (is_num_sub _ _ (inject_Z 1)); [apply is_num_ofZ|].
  apply (is_num_div _ _ _ (inject_Z 128)); [| apply is_num_ofZ | discriminate].
  apply is_num_abs.
  apply (is_num_sub _ _ _ (inject_Z 128)); [|apply is_num_ofZ].
  apply avgBrightness_pixels.
Qed.

Lemma sharpnessScore_pixels :
  JS.is_num (sharpnessScore data)
    (Qmin (sumQ (edgeTerm data) 0 n / inject_Z (Z.of_nat n) / 20) 1).
Proof.
  unfold sharpnessScore.
  apply (is_num_min _ _ _ (inject_Z 1)); [|apply is_num_ofZ].
  apply (is_num_div _ _ _ (inject_Z 20)); [| apply is_num_ofZ | discriminate].
  apply normalizedEdgeStrength_pixels.
Qed.

Lemma calculatePhotoQuality_pixels :
  JS.is_num (calculatePhotoQuality data)
    ((1 - Qabs (sumQ (pixelBrightness data) 0 n / inject_Z (Z.of_nat n) - 128)
          / 128
      + Qmin (sumQ (edgeTerm data) 0 n / inject_Z (Z.of_nat n) / 20) 1) / 2).
Proof.
  unfold calculatePhotoQuality.
  apply (is_num_div _ _ _ (inject_Z 2)); [| apply is_num_ofZ | discriminate].
  apply is_num_add; [apply brightnessScore_pixels | apply sharpnessScore_pixels].
Qed.

End PhotoQualityFacts.

Lemma sumQ_const (f : nat -> Q) (c : Q) (m : nat) : forall a,
  (forall k, (a <= k < a + m)%nat -> f k == c) ->
  PhotoQuality.sumQ f a m == inject_Z (Z.of_nat m) * c.
Proof.
  induction m as [|m IH]; intros a H.
  - simpl. ring.
  - cbn [PhotoQuality.sumQ]. rewrite (H a) by lia. rewrite IH.
    + rewrite Nat2Z.inj_succ. unfold Z.succ. rewrite inject_Z_plus. ring.
    + intros k Hk. apply H. lia.
Qed.

Section UniformFrames.

Import PhotoQuality.

Variables (data : PixelData) (n : nat) (c : Z).
Hypothesis Hlen : pixels n data.
Hypothesis Hpos : (0 < n)%nat.
Hypothesis Huni : uniform c c c data.

Lemma pixelBrightness_uniform k :
  (k < n)%nat -> pixelBrightness data k == inject_Z c.
Proof.
  intros Hk. unfold pixels in Hlen.
  destruct (Huni k) as (H0 & H1 & H2); [lia|].
  unfold pixelBrightness.
  rewrite (nth_error_nth _ _ _ H0), (nth_error_nth _ _ _ H1),
    (nth_error_nth _ _ _ H2).
  field.
Qed.

Lemma edgeTerm_uniform k : (k < n)%nat -> edgeTerm data k == 0.
Proof.
  intros Hk. unfold edgeTerm. unfold pixels in Hlen.
  destruct (Nat.ltb_spec (4 * k + 4) (List.length data)) as [L|L];
    [|reflexivity].
  rewrite !pixelBrightness_uniform by lia.
  setoid_replace (inject_Z c - inject_Z c)%Q with 0%Q by ring. reflexivity.
Qed.

Lemma avg_uniform :
  sumQ (pixelBrightness data) 0 n / inject_Z (Z.of_nat n) == inject_Z c.
Proof.
  rewrite (sumQ_const _ (inject_Z c)).
  - field. now apply pixel_count_nonzero.
  - intros k Hk. apply pixelBrightness_uniform. lia.
Qed.

Lemma edge_uniform :
  sumQ (edgeTerm data) 0 n / inject_Z (Z.of_nat n) == 0.
Proof.
  rewrite (sumQ_const _ 0).
  - field. now apply pixel_count_nonzero.
  - intros k Hk. apply edgeTerm_uniform. lia.
Qed.

Lemma brightnessScore_uniform :
  JS.is_num (brightnessScore data) (1 - Qabs (inject_Z c - 128) / 128).
Proof.
  apply (is_num_ext _ _ _ (brightnessScore_pixels data n Hlen Hpos)).
  rewrite avg_uniform. reflexivity.
Qed.

Lemma sharpnessScore_uniform : JS.is_num (sharpnessScore data) 0.
Proof.
  apply (is_num_ext _ _ _ (sharpnessScore_pixels data n Hlen Hpos)).
  rewrite edge_uniform. reflexivity.
Qed.

Lemma calculatePhotoQuality_uniform :
  JS.is_num (calculatePhotoQuality data)
            ((1 - Qabs (inject_Z c - 128) / 128) / 2).
Proof.
  apply (is_num_ext _ _ _ (calculatePhotoQuality_pixels data n Hlen Hpos)).
  rewrite avg_uniform, edge_uniform.
  setoid_replace (Qmin (0 / 20) 1) with 0%Q by reflexivity. field.
Qed.

End UniformFrames.

(** C5: on a non-empty frame of mid-gray pixels the brightness score is 1, the
    sharpness score 0 and the quality score 0.5; on a non-empty frame of black
    pixels the brightness score is 0. *)
Theorem calculatePhotoQuality_gray_and_black
  (data : PhotoQuality.PixelData) (n : nat) :
  PhotoQuality.pixels n data -> (0 < n)%nat ->
  (PhotoQuality.uniform 128 128 128 data ->
     JS.is_num (PhotoQuality.brightnessScore data) 1
     /\ JS.is_num (PhotoQuality.sharpnessScore data) 0
     /\ JS.is_num (PhotoQuality.calculatePhotoQuality data) (1 # 2))
  /\ (PhotoQuality.uniform 0 0 0 data ->
     JS.is_num (PhotoQuality.brightnessScore data) 0).
Proof.
  intros Hlen Hpos. split; intros Hu.
  - split; [|split].
    + apply (is_num_ext _ _ _ (brightnessScore_uniform data n 128 Hlen Hpos Hu)).
      reflexivity.
    + exact (sharpnessScore_uniform data n 128 Hlen Hpos Hu).
    + apply (is_num_ext _ _ _
               (calculatePhotoQuality_uniform data n 128 Hlen Hpos Hu)).
      reflexivity.
  - apply (is_num_ext _ _ _ (brightnessScore_uniform data n 0 Hlen Hpos Hu)).
    reflexivity.
Qed.

Lemma calculatePhotoQuality_gray_and_black_witness :
  PhotoQuality.pixels 2 Samples.grayFrame
  /\ PhotoQuality.uniform 128 128 128 Samples.grayFrame
  /\ JS.is_num (PhotoQuality.brightnessScore Samples.grayFrame) 1
  /\ JS.is_num (PhotoQuality.sharpnessScore Samples.grayFrame) 0
  /\ JS.is_num (PhotoQuality.calculatePhotoQuality Samples.grayFrame) (1 # 2).
Proof.
  assert (U : PhotoQuality.uniform 128 128 128 Samples.grayFrame).
  { intros k Hk. destruct k as [|[|k]]; simpl in *;
      [repeat split | repeat split | lia]. }
  split; [reflexivity|]. split; [exact U|].
  apply (proj1 (calculatePhotoQuality_gray_and_black Samples.grayFrame 2
                  eq_refl (Nat.lt_0_succ 1)) U).
Defined.




(** ** The photo store *)

Lemma Qltb_true (a b : Q) : JS.Qltb a b = true <-> (a < b)%Q.
Proof.
  unfold JS.Qltb. rewrite negb_true_iff.
  destruct (Qle_bool b a) eqn:E.
  - apply Qle_bool_iff in E. split; [discriminate|].
    intros H. exfalso. exact (Qlt_not_le _ _ H E).
  - split; [|reflexivity]. intros _. apply Qnot_le_lt. intros H.
    apply Qle_bool_iff in H. congruence.
Qed.

Lemma Qltb_false (a b : Q) : JS.Qltb a b = false <-> (b <= a)%Q.
Proof.
  destruct (JS.Qltb a b) eqn:E.
  - apply Qltb_true in E. split; [discriminate|].
    intros H. exfalso. exact (Qlt_not_le _ _ E H).
  - split; [|reflexivity]. intros _. apply Qnot_lt_le. intros H.
    apply Qltb_true in H. congruence.
Qed.

Section BestPhotos.

Import PhotoCapture.

Lemma compareFn_pos a b :
  JS.Qltb 0 (compareFn a b) = true <-> (qualityScore a < qualityScore b)%Q.
Proof.
  rewrite Qltb_true. unfold compareFn. split; intros H.
  - apply Qlt_minus_iff. exact H.
  - apply Qlt_minus_iff in H. exact H.
Qed.

Lemma compareFn_nonpos a b :
  JS.Qltb 0 (compareFn a b) = false <-> (qualityScore b <= qualityScore a)%Q.
Proof.
  rewrite Qltb_false. unfold compareFn. split; intros H.
  - apply Qle_minus_iff. apply Qle_minus_iff in H.
    setoid_replace (qualityScore a + - qualityScore b)%Q
      with (0 + - (qualityScore b - qualityScore a))%Q by ring. exact H.
  - apply Qle_minus_iff. apply Qle_minus_iff in H.
    setoid_replace (0 + - (qualityScore b - qualityScore a))%Q
      with (qualityScore a + - qualityScore b)%Q by ring. exact H.
Qed.

Lemma insert_perm a l : Permutation (insert a l) (a :: l).
Proof.
  induction l as [|b l IH]; simpl.
  - apply Permutation_refl.
  - destruct (JS.Qltb 0 (compareFn a b)).
    + apply perm_trans with (b :: a :: l).
      * now apply perm_skip.
      * apply perm_swap.
    + apply Permutation_refl.
Qed.

Lemma sort_perm l : Permutation (sort l) l.
Proof.
  induction l as [|a l IH]; simpl.
  - apply perm_nil.
  - apply perm_trans with (a :: sort l).
    + apply insert_perm.
    + now apply perm_skip.
Qed.

Lemma insert_descending a l : descending l -> descending (insert a l).
Proof.
  unfold descending.
  induction 1 as [|b l Hs IH Hb]; simpl.
  - constructor; constructor.
  - destruct (JS.Qltb 0 (compareFn a b)) eqn:E.
    + apply compareFn_pos in E. constructor; [exact IH|].
      apply (Permutation_Forall (Permutation_sym (insert_perm a l))).
      constructor; [now apply Qlt_le_weak | exact Hb].
    + apply compareFn_nonpos in E. constructor.
      * now constructor.
      * constructor; [exact E|].
        apply (Forall_impl _ (P := fun c => (qualityScore c <= qualityScore b)%Q));
          [|exact Hb].
        intros c Hc. now apply Qle_trans with (qualityScore b).
Qed.

Lemma sort_descending l : descending (sort l).
Proof.
  induction l as [|a l IH]; simpl.
  - constructor.
  - now apply insert_descending.
Qed.

(** Insertion moves a photo only past strictly better ones, so it keeps
    the order among photos of one score. *)
Lemma scoring_insert sc a l : scoring sc (insert a l) = scoring sc (a :: l).
Proof.
  unfold scoring. induction l as [|b l IH]; [reflexivity|].
  cbn [insert]. destruct (JS.Qltb 0 (compareFn a b)) eqn:E; [|reflexivity].
  apply compareFn_pos in E.
  cbn [filter] in *. rewrite IH.
  destruct (Qeq_bool (qualityScore b) sc) eqn:Eb,
           (Qeq_bool (qualityScore a) sc) eqn:Ea; try reflexivity.
  apply Qeq_bool_iff in Ea, Eb. exfalso.
  rewrite Ea, Eb in E. exact (Qlt_irrefl _ E).
Qed.

Lemma scoring_sort sc l : scoring sc (sort l) = scoring sc l.
Proof.
  induction l as [|a l IH]; [reflexivity|].
  cbn [sort]. rewrite scoring_insert. unfold scoring in *.
  cbn [filter]. now rewrite IH.
Qed.

Lemma slice0_nat {A : Type} (n : nat) (l : list A) :
  JS.slice0 (Z.of_nat n) l = firstn n l.
Proof.
  unfold JS.slice0.
  destruct (Z.ltb_spec (Z.of_nat n) 0) as [L|L]; [lia|].
  destruct (Nat.le_gt_cases n (List.length l)) as [H|H].
  - rewrite Z.min_l by lia. now rewrite Nat2Z.id.
  - rewrite Z.min_r by lia. rewrite Nat2Z.id.
    rewrite !firstn_all2 by lia. reflexivity.
Qed.

Lemma descending_firstn n l : descending l -> descending (firstn n l).
Proof.
  unfold descending. intros H. revert n.
  induction H as [|b l Hs IH Hb]; intros [|n]; simpl; try constructor.
  - apply IH.
  - apply Forall_forall. intros c Hc.
    rewrite Forall_forall in Hb. apply Hb.
    rewrite <- (firstn_skipn n l). apply in_or_app. now left.
Qed.

Lemma scoring_firstn sc n l :
  scoring sc l = (scoring sc (firstn n l) ++ scoring sc (skipn n l))%list.
Proof.
  unfold scoring. rewrite <- filter_app. now rewrite firstn_skipn.
Qed.

End BestPhotos.

(** C7: [getBestPhotos n] has length [min n |collection|]; it is the prefix
    of the collection sorted by score, best first; photos of equal score
    keep their insertion order, and those returned are the earliest of their
    score.  On the scores 0.2, 0.9, 0.5 and [n = 2] it returns the photos
    scoring 0.9 and 0.5, in that order. *)
Theorem getBestPhotos_best_first (photos : list CapturedPhoto) (n : nat) :
  let best := PhotoCapture.getBestPhotos (Z.of_nat n) photos in
  List.length best = Nat.min n (List.length photos)
  /\ PhotoCapture.descending best
  /\ (exists rest, Permutation (best ++ rest)%list photos
        /\ PhotoCapture.descending (best ++ rest)%list
        /\ forall sc,
             PhotoCapture.scoring sc photos
             = (PhotoCapture.scoring sc best
                ++ PhotoCapture.scoring sc rest)%list)
  /\ map qualityScore (PhotoCapture.getBestPhotos 2 Samples.threePhotos)
     = [9 # 10; 5 # 10]%Q.
Proof.
  intros best. subst best. unfold PhotoCapture.getBestPhotos.
  rewrite slice0_nat. repeat split.
  - rewrite length_firstn.
    now rewrite (Permutation_length (sort_perm photos)).
  - apply descending_firstn, sort_descending.
  - exists (skipn n (PhotoCapture.sort photos)).
    rewrite firstn_skipn. repeat split.
    + apply sort_perm.
    + apply sort_descending.
    + intros sc. rewrite <- (scoring_sort sc photos).
      apply scoring_firstn.
Qed.

(** ** The page layout *)

Section LayoutFacts.

Import LayoutGenerator.

Lemma images_app a b : images (a ++ b)%list = (images a ++ images b)%list.
Proof.
  induction a as [|[] a IH]; simpl; try exact IH.
  - reflexivity.
  - now rewrite IH.
Qed.

Lemma images_photos l : forall i,
  images (List.concat (JS.mapi_from drawPhoto i l)) = JS.mapi_from imageOf i l.
Proof.
  induction l as [|p l IH]; intros i; simpl; [reflexivity|].
  now rewrite IH.
Qed.

Lemma length_mapi_from {A B} (f : A -> Z -> B) l : forall i,
  List.length (JS.mapi_from f i l) = List.length l.
Proof. induction l as [|v l IH]; intros i; simpl; [|rewrite IH]; reflexivity. Qed.

Lemma nth_error_mapi_from {A B} (f : A -> Z -> B) l : forall i k v,
  nth_error l k = Some v ->
  nth_error (JS.mapi_from f i l) k = Some (f v (i + Z.of_nat k)).
Proof.
  induction l as [|u l IH]; intros i k v H; destruct k as [|k];
    simpl in *; try discriminate.
  - injection H as ->. now rewrite Z.add_0_r.
  - rewrite (IH (i + 1) k v H). f_equal. f_equal. lia.
Qed.

Lemma In_mapi_from {A B} (f : A -> Z -> B) l : forall i b,
  In b (JS.mapi_from f i l) ->
  exists k v, nth_error l k = Some v /\ b = f v (i + Z.of_nat k).
Proof.
  induction l as [|u l IH]; intros i b H; simpl in H; [contradiction|].
  destruct H as [H|H].
  - exists 0%nat, u. split; [reflexivity|]. now rewrite Z.add_0_r.
  - destruct (IH _ _ H) as (k & v & Hk & Hb).
    exists (S k), v. split; [exact Hk|]. rewrite Hb. f_equal. lia.
Qed.

Lemma imageOf_fills_slot photo index :
  0 <= index ->
  fills_slot (imageOf photo index) (dataUrl photo) (index / 5) (index mod 5).
Proof.
  intros _. unfold imageOf, drawPhoto, fills_slot. cbn [hd].
  change cols with 5. change (inject_Z (photoWidth + margin)) with (473 # 1)%Q.
  change (inject_Z (photoHeight + margin)) with (591 # 1)%Q.
  unfold slotX, slotY. rewrite !inject_Z_mult.
  change startX with (inject_Z 175 / 2)%Q.
  change startY with (inject_Z 613 / 2)%Q.
  repeat split; try reflexivity.
  - change (inject_Z 473) with (473 # 1)%Q. field.
  - change (inject_Z 591) with (591 # 1)%Q. field.
Qed.

Lemma slot_injective r1 c1 r2 c2 :
  slotX c1 == slotX c2 -> slotY r1 == slotY r2 -> r1 = r2 /\ c1 = c2.
Proof.
  unfold slotX, slotY, Qeq, Qplus, inject_Z; cbn [Qnum Qden]. lia.
Qed.

Lemma images_generateLayout photos ops :
  generateLayout true true photos = Some ops ->
  images ops = JS.mapi imageOf (firstn 25 photos).
Proof.
  unfold generateLayout. simpl negb. cbn [orb].
  destruct (Z.of_nat (List.length photos) =? 0); [discriminate|].
  intros H. injection H as <-.
  change (FillRect "white" 0 0 (inject_Z pageWidth) (inject_Z pageHeight)
          :: ?l)%list
    with ([FillRect "white" 0 0 (inject_Z pageWidth) (inject_Z pageHeight)]
          ++ l)%list.
  unfold JS.mapi. rewrite !images_app, images_photos.
  cbn [images app verticalGuide horizontalGuide]. rewrite app_nil_r.
  f_equal. change totalSlots with (Z.of_nat 25). apply slice0_nat.
Qed.

End LayoutFacts.

Lemma fills_slot_functional op s1 r1 c1 s2 r2 c2 :
  LayoutGenerator.fills_slot op s1 r1 c1 ->
  LayoutGenerator.fills_slot op s2 r2 c2 -> r1 = r2 /\ c1 = c2.
Proof.
  destruct op as [| src px py w h | |]; simpl; try tauto.
  intros (_ & X1 & Y1 & _) (_ & X2 & Y2 & _).
  apply slot_injective.
  - now rewrite <- X1, <- X2.
  - now rewrite <- Y1, <- Y2.
Qed.

Lemma In_images op ops src row col :
  In op ops -> LayoutGenerator.fills_slot op src row col ->
  In op (LayoutGenerator.images ops).
Proof.
  induction ops as [|o ops IH]; simpl; [tauto|].
  intros [->|H] F.
  - destruct op; simpl in F; try contradiction. now left.
  - destruct o; try (right); now apply IH.
Qed.

(** C9: the grid has [cols = floor (2480 / (413 + 60))] columns and
    [rows = floor (3508 / (531 + 60))] rows, 25 slots in all.  For a
    non-empty photo list the page holds exactly the first
    [min |photos| 25] photos, the [k]-th one in row [k / cols] and column
    [k mod cols]; the slots from [|photos|] on hold no image.  An empty list
    draws nothing.  No outcome is an error. *)
Theorem generateLayout_fills_first_slots (photos : list CapturedPhoto) :
  LayoutGenerator.cols = 2480 / (413 + 60)
  /\ LayoutGenerator.rows = 3508 / (531 + 60)
  /\ LayoutGenerator.totalSlots = LayoutGenerator.cols * LayoutGenerator.rows
  /\ LayoutGenerator.totalSlots = 25
  /\ (photos = [] -> LayoutGenerator.generateLayout true true photos = None)
  /\ (photos <> [] ->
      exists ops,
        LayoutGenerator.generateLayout true true photos = Some ops
        /\ List.length (LayoutGenerator.images ops)
           = Nat.min (List.length photos) 25
        /\ (forall k, (k < Nat.min (List.length photos) 25)%nat ->
              exists p op,
                nth_error photos k = Some p
                /\ nth_error (LayoutGenerator.images ops) k = Some op
                /\ LayoutGenerator.fills_slot op (dataUrl p)
                     (Z.of_nat k / LayoutGenerator.cols)
                     (Z.of_nat k mod LayoutGenerator.cols))
        /\ (forall k op src, (List.length photos <= k < 25)%nat ->
              In op ops ->
              ~ LayoutGenerator.fills_slot op src
                  (Z.of_nat k / LayoutGenerator.cols)
                  (Z.of_nat k mod LayoutGenerator.cols))).
Proof.
  do 4 (split; [reflexivity|]). split.
  - intros ->. reflexivity.
  - intros Hne.
    destruct (LayoutGenerator.generateLayout true true photos) as [ops|] eqn:G.
    2:{ unfold LayoutGenerator.generateLayout in G. simpl negb in G.
        cbn [orb] in G. destruct photos; [congruence|]. simpl in G.
        discriminate. }
    exists ops. split; [reflexivity|].
    pose proof (images_generateLayout photos ops G) as HI.
    change LayoutGenerator.cols with 5.
    split; [|split].
    + rewrite HI. unfold JS.mapi. rewrite length_mapi_from, length_firstn.
      apply Nat.min_comm.
    + intros k Hk.
      destruct (nth_error photos k) as [p|] eqn:Ep.
      2:{ apply nth_error_None in Ep. lia. }
      exists p, (LayoutGenerator.imageOf p (Z.of_nat k)).
      split; [reflexivity|]. split.
      * rewrite HI. unfold JS.mapi.
        apply (nth_error_mapi_from LayoutGenerator.imageOf _ 0 k p).
        rewrite nth_error_firstn.
        destruct (Nat.ltb_spec k 25); [exact Ep | lia].
      * apply imageOf_fills_slot. lia.
    + intros k op src Hk Hin F.
      pose proof (In_images _ _ _ _ _ Hin F) as Him.
      rewrite HI in Him. unfold JS.mapi in Him.
      apply In_mapi_from in Him. destruct Him as (j & v & Hj & ->).
      assert (Hjlt : (j < List.length photos)%nat).
      { assert (Hl : (j < List.length (firstn 25 photos))%nat)
          by (apply nth_error_Some; congruence).
        rewrite length_firstn in Hl. lia. }
      pose proof (imageOf_fills_slot v (0 + Z.of_nat j) ltac:(lia)) as Fj.
      destruct (fills_slot_functional _ _ _ _ _ _ _ Fj F) as [Hr Hc].
      pose proof (Z_div_mod_eq_full (0 + Z.of_nat j) 5).
      pose proof (Z_div_mod_eq_full (Z.of_nat k) 5).
      lia.
Qed.

Lemma generateLayout_fills_first_slots_witness :
  Samples.threePhotos <> []
  /\ exists ops,
       LayoutGenerator.generateLayout true true Samples.threePhotos = Some ops
       /\ List.length (LayoutGenerator.images ops) = 3%nat.
Proof.
  assert (Hne : Samples.threePhotos <> []) by discriminate.
  split; [exact Hne|].
  destruct (proj2 (proj2 (proj2 (proj2 (proj2
              (generateLayout_fills_first_slots Samples.threePhotos))))) Hne)
    as (ops & G & L & _).
  exists ops. split; [exact G | exact L].
Defined.

(** ** The auto-capture gate *)

Section GateFacts.

Import App.

Lemma transitions_step tr : forall s k T,
  nth_error (transitions s tr) k = Some T ->
  step (at_time T) (event T) (pre T) = (post T, output T).
Proof.
  induction tr as [|[now ev] tr IH]; intros s k T H.
  - destruct k; discriminate.
  - cbn [transitions] in H.
    destruct (step now ev s) as [s' out] eqn:E.
    destruct k as [|k]; cbn [nth_error] in H.
    + injection H as <-. exact E.
    + exact (IH _ _ _ H).
Qed.

Lemma refs_commit now s s' : refs (commit now s s') = refs s'.
Proof. unfold commit. destruct (Bool.eqb _ _); reflexivity. Qed.

(** What one call of [handlePoseDetected] does to the stability refs. *)
Lemma handlePoseDetected_cases now pose s :
  let s' := fst (handlePoseDetected now pose s) in
  let f := snd (handlePoseDetected now pose s) in
  let open := negb (gate_closed s) && negb (cooling_down now s) in
  lastCaptureTime (refs s') = lastCaptureTime (refs s)
  /\ ( (* ignored *)
       (open = false /\ f = false /\ refs s' = refs s)
    \/ (* the hold starts *)
       (open = true /\ isGoodPose pose = true /\ f = false
        /\ wasCorrectPose (refs s) = false
        /\ poseStableTime (refs s') = now
        /\ wasCorrectPose (refs s') = true)
    \/ (* the hold goes on *)
       (open = true /\ isGoodPose pose = true /\ f = false
        /\ wasCorrectPose (refs s) = true
        /\ now - poseStableTime (refs s) <= 2000
        /\ refs s' = refs s)
    \/ (* the hold ends in a trigger *)
       (open = true /\ isGoodPose pose = true /\ f = true
        /\ wasCorrectPose (refs s) = true
        /\ 2000 < now - poseStableTime (refs s)
        /\ poseStableTime (refs s') = poseStableTime (refs s)
        /\ wasCorrectPose (refs s') = false)
    \/ (* the hold is broken *)
       (open = true /\ isGoodPose pose = false /\ f = false
        /\ poseStableTime (refs s') = poseStableTime (refs s)
        /\ wasCorrectPose (refs s') = false) ).
Proof.
  unfold handlePoseDetected.
  change (gate_closed (setCurrentPose (Some pose) s)) with (gate_closed s).
  change (cooling_down now (setCurrentPose (Some pose) s))
    with (cooling_down now s).
  change (refs (setCurrentPose (Some pose) s)) with (refs s).
  destruct (gate_closed s); [cbn; tauto|].
  destruct (cooling_down now s); [cbn; tauto|].
  destruct (isGoodPose pose).
  - destruct (wasCorrectPose (refs s)) eqn:W; cbn [negb].
    + destruct (Z.ltb_spec 2000 (now - poseStableTime (refs s))).
      * cbn. split; [reflexivity|]. right; right; right; left. tauto.
      * cbn. split; [reflexivity|]. right; right; left. tauto.
    + cbn. split; [reflexivity|]. right; left. tauto.
  - cbn. split; [reflexivity|]. right; right; right; right. tauto.
Qed.

Lemma step_PoseDetected now pose s :
  refs (fst (step now (PoseDetected pose) s))
  = refs (fst (handlePoseDetected now pose s))
  /\ snd (step now (PoseDetected pose) s)
     = if snd (handlePoseDetected now pose s) then Some Trigger else None.
Proof.
  unfold step. cbn [handle].
  destruct (handlePoseDetected now pose s) as [s' f].
  cbn [fst snd]. split; [apply refs_commit | reflexivity].
Qed.

(** Events other than pose samples leave the stability refs alone and
    emit no trigger. *)
Lemma step_other now ev s :
  (forall pose, ev <> PoseDetected pose) ->
  poseStableTime (refs (fst (step now ev s))) = poseStableTime (refs s)
  /\ wasCorrectPose (refs (fst (step now ev s))) = wasCorrectPose (refs s)
  /\ snd (step now ev s) <> Some Trigger.
Proof.
  intros Hev. unfold step.
  destruct ev as [|pose|c|r| |r| |i|]; cbn [handle].
  - cbn [fst snd]. rewrite refs_commit. repeat split; discriminate.
  - now destruct (Hev pose).
  - cbn [fst snd]. rewrite refs_commit. repeat split; discriminate.
  - cbn [fst snd]. rewrite refs_commit. unfold handleManualCapture.
    destruct (negb (currentVideo s) || isCapturing s);
      repeat split; discriminate.
  - destruct (suspended s) as [|k rest]; cbn [fst snd]; rewrite refs_commit.
    + repeat split; discriminate.
    + unfold resume. destruct (outcome k) as [photo|];
        [destruct (origin k)|]; repeat split; discriminate.
  - destruct (CountdownTimer.tick duration now (countdown s)) as [c done].
    unfold handleCountdownComplete.
    destruct done; cbn [fst snd]; rewrite refs_commit.
    + cbn. destruct (currentVideo s); repeat split; discriminate.
    + repeat split; discriminate.
  - cbn [fst snd]. rewrite refs_commit. repeat split; discriminate.
  - cbn [fst snd]. rewrite refs_commit. repeat split; discriminate.
  - cbn [fst snd]. rewrite refs_commit. repeat split; discriminate.
Qed.

End GateFacts.

Section GateRuns.

Import App.

(** The four ways a transition can act on the stability clock. *)
Lemma transition_cases T :
  step (at_time T) (event T) (pre T) = (post T, output T) ->
  (processed T = true /\ good T = true /\ fired T = false
   /\ wasCorrectPose (refs (pre T)) = false
   /\ poseStableTime (refs (post T)) = at_time T
   /\ wasCorrectPose (refs (post T)) = true)
  \/ (processed T = true /\ good T = true /\ fired T = true
      /\ wasCorrectPose (refs (pre T)) = true
      /\ 2000 < at_time T - poseStableTime (refs (pre T))
      /\ wasCorrectPose (refs (post T)) = false)
  \/ (processed T = true /\ good T = false /\ fired T = false
      /\ wasCorrectPose (refs (post T)) = false)
  \/ (fired T = false /\ (processed T = true -> good T = true)
      /\ poseStableTime (refs (post T)) = poseStableTime (refs (pre T))
      /\ wasCorrectPose (refs (post T)) = wasCorrectPose (refs (pre T))).
Proof.
  destruct T as [s now ev s' out]. cbn [at_time event pre post output].
  intros E. unfold fired, processed, good. cbn [at_time event pre post output].
  destruct ev as [|p|c|r| |r| |i|];
    try (match type of E with
         | step _ ?e _ = _ =>
             assert (Hne : forall q, e <> PoseDetected q)
               by (intros; discriminate);
             destruct (step_other now e s Hne) as (H1 & H2 & H3)
         end;
         rewrite E in H1, H2, H3; cbn [fst snd] in H1, H2, H3;
         right; right; right;
         repeat split; try assumption; try discriminate;
         destruct out as [[]|]; congruence).
  destruct (step_PoseDetected now p s) as [Hr Ho].
  rewrite E in Hr, Ho. cbn [fst snd] in Hr, Ho.
  destruct (handlePoseDetected_cases now p s) as [_ H].
  cbv zeta in H. rewrite <- Hr in H.
  destruct (snd (handlePoseDetected now p s)); subst out;
    destruct H as [H|[H|[H|[H|H]]]];
    try (destruct H as (_ & _ & H & _); discriminate H);
    try (destruct H as (_ & H & _); discriminate H).
  - right; left. destruct H as (Ho & Hg & _ & Hw & Ht & _ & Hw').
    repeat split; assumption.
  - right; right; right. destruct H as (Ho & _ & Hrefs).
    rewrite Ho, Hrefs. repeat split; discriminate.
  - left. destruct H as (Ho & Hg & _ & Hw & Ht & Hw').
    repeat split; assumption.
  - right; right; right. destruct H as (Ho & Hg & _ & Hw & _ & Hrefs).
    rewrite Hrefs. repeat split. intros _. exact Hg.
  - right; right; left. destruct H as (Ho & Hg & _ & _ & Hw').
    repeat split; assumption.
Qed.

Lemma hold_suffix tr : forall s k T,
  nth_error (transitions s tr) k = Some T -> fired T = true ->
  (exists j, hold_from (transitions s tr) j k T)
  \/ (wasCorrectPose (refs s) = true
      /\ poseStableTime (refs (pre T)) = poseStableTime (refs s)
      /\ 2000 < at_time T - poseStableTime (refs s)
      /\ forall i M, (i < k)%nat ->
           nth_error (transitions s tr) i = Some M ->
           fired M = false /\ (processed M = true -> good M = true)).
Proof.
  induction tr as [|[now ev] tr IH]; intros s k T HT HF.
  - destruct k; discriminate.
  - pose proof (transitions_step _ _ _ _ HT) as ET.
    cbn [transitions] in *.
    destruct (step now ev s) as [s' out] eqn:E.
    destruct k as [|k]; cbn [nth_error] in HT.
    + injection HT as <-. right.
      destruct (transition_cases _ ET) as [H|[H|[H|H]]];
        cbn [pre post at_time] in *;
        try (destruct H as (_ & _ & H & _); congruence);
        try (destruct H as (H & _); congruence).
      destruct H as (_ & _ & _ & Hw & Ht & _).
      split; [exact Hw|]. split; [reflexivity|]. split; [exact Ht|].
      intros i M Hi. lia.
    + destruct (IH s' k T HT HF)
        as [[j (S & Hj & HS & P1 & P2 & P0 & P3 & P4 & P5 & P6)]
           | (Hw & Hp & Ht & Hall)].
      * left. exists (Datatypes.S j), S.
        split; [lia|]. split; [exact HS|].
        split; [exact P1|]. split; [exact P2|]. split; [exact P0|].
        split; [exact P3|].
        split; [exact P4|]. split; [exact P5|].
        intros i M Hi HM. destruct i as [|i]; [lia|].
        cbn [nth_error] in HM. apply (P6 i M); [lia | exact HM].
      * pose (F := {| pre := s; at_time := now; event := ev; post := s';
                      output := out |}).
        assert (EF : step (at_time F) (event F) (pre F) = (post F, output F))
          by exact E.
        destruct (transition_cases _ EF) as [H|[H|[H|H]]];
          change (post F) with s' in H; change (pre F) with s in H;
          change (at_time F) with now in H.
        -- destruct H as (Q1 & Q2 & Q3 & Q4 & Q5 & Q6).
           left. exists 0%nat, F. cbn [nth_error].
           split; [lia|]. split; [reflexivity|].
           split; [exact Q1|]. split; [exact Q2|]. split; [exact Q3|].
           split; [exact Q4|].
           split; [change (at_time F) with now; congruence|].
           split; [change (at_time F) with now; rewrite <- Q5; exact Ht|].
           intros i M Hi HM. destruct i as [|i]; [lia|].
           cbn [nth_error] in HM. apply (Hall i M); [lia | exact HM].
        -- destruct H as (_ & _ & _ & _ & _ & H). congruence.
        -- destruct H as (_ & _ & _ & H). congruence.
        -- destruct H as (Q1 & Q2 & Q3 & Q4). right.
           split; [congruence|]. split; [congruence|].
           split; [rewrite <- Q3; exact Ht|].
           intros i M Hi HM. destruct i as [|i]; cbn [nth_error] in HM.
           ++ injection HM as <-. split; [exact Q1 | exact Q2].
           ++ apply (Hall i M); [lia | exact HM].
Qed.

End GateRuns.

(** C1: a trigger is emitted only by a processed good sample that ends a
    hold: the hold started at an earlier processed good sample that found the
    gate idle, more than 2000ms before, and since then every processed sample
    was good and no trigger was emitted; the trigger leaves the gate idle.  A
    processed sample that is not good emits nothing and leaves the gate
    idle. *)
Theorem gate_trigger_after_stable_hold
  (s : App.State) (tr : list (Z * App.Event)) :
  App.wasCorrectPose (App.refs s) = false ->
  (forall k T,
     nth_error (App.transitions s tr) k = Some T -> App.fired T = true ->
     App.processed T = true /\ App.good T = true
     /\ App.wasCorrectPose (App.refs (App.post T)) = false
     /\ exists j, App.hold_from (App.transitions s tr) j k T)
  /\ (forall k T,
        nth_error (App.transitions s tr) k = Some T ->
        App.processed T = true -> App.good T = false ->
        App.fired T = false
        /\ App.wasCorrectPose (App.refs (App.post T)) = false).
Proof.
  intros Hidle. split; intros k T HT.
  - intros HF.
    pose proof (transitions_step _ _ _ _ HT) as E.
    assert (H3 : App.processed T = true /\ App.good T = true
                 /\ App.wasCorrectPose (App.refs (App.post T)) = false).
    { destruct (transition_cases _ E) as [H|[H|[H|H]]].
      - destruct H as (_ & _ & H & _). congruence.
      - destruct H as (P1 & P2 & _ & _ & _ & P3). auto.
      - destruct H as (_ & _ & H & _). congruence.
      - destruct H as (H & _). congruence. }
    destruct H3 as (P1 & P2 & P3).
    split; [exact P1|]. split; [exact P2|]. split; [exact P3|].
    destruct (hold_suffix tr s k T HT HF) as [H|(H & _)]; [exact H|congruence].
  - intros HP HG.
    pose proof (transitions_step _ _ _ _ HT) as E.
    destruct (transition_cases _ E) as [H|[H|[H|H]]].
    + destruct H as (_ & H & _). congruence.
    + destruct H as (_ & H & _). congruence.
    + destruct H as (_ & _ & P1 & P2). auto.
    + destruct H as (_ & H & _). specialize (H HP). congruence.
Qed.

Lemma gate_trigger_after_stable_hold_witness :
  App.wasCorrectPose (App.refs App.init) = false
  /\ exists T,
       nth_error (App.transitions App.init Samples.autoSession) 2 = Some T
       /\ App.fired T = true
       /\ App.wasCorrectPose (App.refs (App.post T)) = false
       /\ exists j, App.hold_from
                      (App.transitions App.init Samples.autoSession) j 2 T.
Proof.
  split; [reflexivity|].
  eexists. split; [reflexivity|]. split; [reflexivity|].
  apply (proj1 (gate_trigger_after_stable_hold App.init Samples.autoSession
                  eq_refl) 2%nat _ eq_refl eq_refl).
Defined.

(** ** The pipeline: gate, countdown and capture *)

Section Pacing.

Import App.

(** Unfolds the handlers and the setters. *)
Ltac app_unfold :=
  unfold step, handle, commit, enabled, handlePoseDetected,
    handleManualCapture, handleCountdownComplete, resume, startCountdown,
    gate_closed, cooling_down, latest, paced,
    setCurrentVideo, setCurrentPose, setIsCountdownActive, setAutoCapture,
    setCapturedPhotos, setIsCapturing, setRefs, setCountdown, setSuspended,
    CountdownTimer.tick, CountdownTimer.effect, CountdownTimer.tick_enabled,
    CountdownTimer.mount, duration in *.

(** Reduces the projections of the records built by the setters. *)
Ltac app_cbn :=
  cbn [currentVideo currentPose isCountdownActive autoCapture capturedPhotos
       isCapturing refs countdown suspended
       lastCaptureTime poseStableTime wasCorrectPose
       CountdownTimer.count CountdownTimer.timer
       origin outcome fst snd negb orb andb Bool.eqb] in *.

(** A condition is split once the record it reads has been computed. *)
Ltac simple_test b :=
  lazymatch b with
  | context [fst _] => fail
  | context [snd _] => fail
  | context [isCountdownActive _] => fail
  | context [currentVideo _] => fail
  | context [if _ then _ else _] => fail
  | _ => idtac
  end.

(** Splits on the conditions of the handlers, innermost records first. *)
Ltac split_ifs :=
  repeat match goal with
  | |- context [if ?b then _ else _] =>
      simple_test b;
      lazymatch b with
      | (?a <? ?c) => destruct (Z.ltb_spec a c)
      | (?a <=? ?c) => destruct (Z.leb_spec a c)
      | _ => destruct b eqn:?
      end; app_cbn
  | |- context [match ?o with Some _ => _ | None => _ end] =>
      is_var o; destruct o eqn:?; app_cbn
  | |- context [match ?o with nil => _ | cons _ _ => _ end] =>
      is_var o; destruct o eqn:?; app_cbn
  | |- context [match ?o with Auto => _ | Manual => _ end] =>
      is_var o; destruct o; app_cbn
  | k : Suspended |- _ => destruct k as [? ?]; app_cbn
  end.

(** Opens conjunctions, witnesses and equations between constructors. *)
Ltac break_hyps :=
  repeat match goal with
  | H : _ /\ _ |- _ => destruct H
  | H : exists _, _ |- _ => destruct H
  | H : Some _ = Some _ |- _ => injection H as H
  | H : Some _ = None |- _ => discriminate H
  | H : None = Some _ |- _ => discriminate H
  | H : true = false |- _ => discriminate H
  | H : false = true |- _ => discriminate H
  | H : (_, _) = (_, _) |- _ => injection H as ? ?
  | H : CountdownTimer.Build_State _ _ = CountdownTimer.Build_State _ _ |- _ =>
      injection H as ? ?
  | H : true = true -> _ |- _ => specialize (H eq_refl)
  end; subst.

(** Closes a case of the invariant: the facts are linear arithmetic on the
    times and the counter. *)
Ltac pace_finish :=
  break_hyps; app_cbn;
  repeat match goal with
  | |- _ /\ _ => split
  | |- exists _, Some _ = Some _ /\ _ => eexists; split; [reflexivity|]
  | |- _ -> _ => intro; break_hyps
  end;
  try reflexivity; try lia; try congruence; try discriminate.

(** One enabled event keeps the invariant, and a trigger comes more than
    5000ms after the latest one. *)
Lemma paced_step clock last s now ev :
  paced clock last s -> clock <= now -> enabled now ev s = true ->
  paced now (latest last now (snd (step now ev s))) (fst (step now ev s))
  /\ (snd (step now ev s) = Some Trigger ->
      forall t1, last = Some t1 -> t1 + 5000 < now).
Proof.
  destruct s as [cv cp ica ac photos icap [lct pst wcp] [cnt tm] susp].
  intros P Hc He.
  destruct ev as [|p|c|r| |r| |i|]; app_unfold; app_cbn.
  all: destruct last as [t1|], ica, wcp; app_cbn; split_ifs; pace_finish.
Qed.

Lemma triggers_cons F l :
  triggers (F :: l)
  = if fired F then at_time F :: triggers l else triggers l.
Proof. unfold triggers. cbn [filter]. now destruct (fired F). Qed.

(** Along an execution every trigger comes more than 5000ms after the
    latest earlier one. *)
Lemma paced_run tr : forall s clock last,
  paced clock last s -> valid clock s tr = true ->
  Forall (fun t => forall t1, last = Some t1 -> t1 + 5000 < t)
         (triggers (transitions s tr))
  /\ StronglySorted (fun a b => a + 5000 < b) (triggers (transitions s tr)).
Proof.
  induction tr as [|[now ev] tr IH]; intros s clock last P V.
  - split; constructor.
  - cbn [valid] in V. apply andb_prop in V. destruct V as [V V3].
    apply andb_prop in V. destruct V as [V1 V2]. apply Z.leb_le in V1.
    destruct (paced_step clock last s now ev P V1 V2) as [P' HT].
    cbn [transitions]. destruct (step now ev s) as [s' out] eqn:E.
    cbn [fst snd] in *.
    destruct (IH s' now _ P' V3) as [IF IS].
    rewrite triggers_cons. unfold fired. cbn [output at_time].
    destruct out as [[]|]; cbn [latest] in IF.
    + specialize (HT eq_refl).
      assert (HF : Forall (fun t => now + 5000 < t)
                          (triggers (transitions s' tr))).
      { apply (Forall_impl _ (P := fun t =>
                 forall t1, Some now = Some t1 -> t1 + 5000 < t));
          [|exact IF].
        intros t H. now apply H. }
      split.
      * constructor; [exact HT|].
        apply (Forall_impl _ (P := fun t => now + 5000 < t)); [|exact HF].
        intros t H t1 H1. specialize (HT t1 H1). lia.
      * constructor; assumption.
    + split; assumption.
    + split; assumption.
Qed.

End Pacing.

Lemma StronglySorted_nth {A : Type} (R : A -> A -> Prop) (l : list A) :
  StronglySorted R l ->
  forall i j a b, (i < j)%nat ->
    nth_error l i = Some a -> nth_error l j = Some b -> R a b.
Proof.
  induction 1 as [|c l Hs IH Hc]; intros i j a b Hij Ha Hb.
  - destruct i; discriminate.
  - destruct j as [|j]; [lia|]. cbn [nth_error] in Hb.
    destruct i as [|i]; cbn [nth_error] in Ha.
    + injection Ha as <-. rewrite Forall_forall in Hc. apply Hc.
      exact (nth_error_In _ _ Hb).
    + apply (IH i j); [lia | exact Ha | exact Hb].
Qed.

(** C2: in every execution of the pipeline, whatever the times of the pose
    samples, two triggers of the gate are at least 5000ms apart. *)
Theorem triggers_five_seconds_apart
  (clock : Z) (tr : list (Z * App.Event)) (i j : nat) (t1 t2 : Z) :
  App.valid clock App.init tr = true ->
  (i < j)%nat ->
  nth_error (App.triggers (App.transitions App.init tr)) i = Some t1 ->
  nth_error (App.triggers (App.transitions App.init tr)) j = Some t2 ->
  5000 <= t2 - t1.
Proof.
  intros V Hij H1 H2.
  assert (P : App.paced clock None App.init) by (split; reflexivity).
  destruct (paced_run tr App.init clock None P V) as [_ S].
  pose proof (StronglySorted_nth _ _ S i j t1 t2 Hij H1 H2) as H.
  cbv beta in H. lia.
Qed.

Lemma triggers_five_seconds_apart_witness :
  App.valid 0 App.init Samples.autoSession = true
  /\ App.triggers (App.transitions App.init Samples.autoSession)
     = [1002200; 1012202]
  /\ 5000 <= 1012202 - 1002200.
Proof.
  split; [reflexivity|]. split; [reflexivity|].
  apply (triggers_five_seconds_apart 0 Samples.autoSession 0 1
           1002200 1012202 eq_refl (Nat.lt_0_succ 0) eq_refl eq_refl).
Defined.

(** ** The cooldown *)

Section Cooldown.

Import App.

(** While fewer than 5000ms have passed since [lastCaptureTime], a pose
    sample changes no ref and emits nothing. *)
Lemma cooldown_ignores now pose s :
  now - lastCaptureTime (refs s) < 5000 ->
  refs (fst (step now (PoseDetected pose) s)) = refs s
  /\ snd (step now (PoseDetected pose) s) = None.
Proof.
  intros H.
  destruct (step_PoseDetected now pose s) as [Hr Ho]. rewrite Hr, Ho.
  destruct (handlePoseDetected_cases now pose s) as [_ C]. cbv zeta in C.
  assert (Hc : cooling_down now s = true)
    by (unfold cooling_down; apply Z.ltb_lt; exact H).
  rewrite Hc, andb_false_r in C.
  destruct C as [(_ & -> & ->)|[C|[C|[C|C]]]];
    [split; reflexivity | | | | ]; destruct C as [C _]; discriminate C.
Qed.

(** The resumed [handleCountdownComplete] records the time of a
    successful capture, and the samples of the next 5000ms are ignored. *)
Lemma auto_capture_starts_cooldown now s k rest photo :
  suspended s = k :: rest -> origin k = Auto -> outcome k = Some photo ->
  let s1 := fst (step now Resume s) in
  lastCaptureTime (refs s1) = now
  /\ forall now' pose, now' - now < 5000 ->
       refs (fst (step now' (PoseDetected pose) s1)) = refs s1
       /\ snd (step now' (PoseDetected pose) s1) = None.
Proof.
  intros Hs Ho Hp s1.
  assert (L : lastCaptureTime (refs s1) = now).
  { subst s1. unfold step. cbn [handle]. rewrite Hs. cbn [fst].
    rewrite refs_commit. unfold resume. rewrite Hp, Ho. reflexivity. }
  split; [exact L|].
  intros now' pose H. apply cooldown_ignores. rewrite L. exact H.
Qed.

End Cooldown.

(** C3 fails for the manual capture: [handleManualCapture] does not record
    the time of its capture.  In the session below a capture started with the
    button completes successfully at 1001001; the sample of 1002200, less
    than 5000ms later, is processed all the same and emits a trigger. *)
Theorem manual_capture_starts_no_cooldown :
  exists C T,
    nth_error (App.transitions App.init Samples.manualSession) 3 = Some C
    /\ nth_error (App.transitions App.init Samples.manualSession) 4 = Some T
    /\ App.event C = App.Resume /\ App.at_time C = 1001001
    /\ List.length (App.capturedPhotos (App.post C))
       = S (List.length (App.capturedPhotos (App.pre C)))
    /\ App.lastCaptureTime (App.refs (App.post C)) = 0
    /\ App.at_time T - App.at_time C < 5000
    /\ App.processed T = true
    /\ App.refs (App.post T) <> App.refs (App.pre T)
    /\ App.fired T = true.
Proof.
  eexists. eexists.
  split; [reflexivity|]. split; [reflexivity|].
  repeat split; discriminate.
Qed.

(** ** The countdown *)

Section CountdownFacts.

Import CountdownTimer.

Lemma ticks_cons now ev tr :
  ticks ((now, ev) :: tr)
  = match ev with Tick => S (ticks tr) | _ => ticks tr end.
Proof. unfold ticks. cbn [filter]. destruct ev; reflexivity. Qed.

Lemma run_app d tr1 tr2 : forall k,
  run d (tr1 ++ tr2) k
  = match run d tr1 k with
    | Some k1 => run d tr2 k1
    | None => None
    end.
Proof.
  induction tr1 as [|[now ev] tr1 IH]; intros k; cbn [run app].
  - reflexivity.
  - destruct (step d now ev k) as [k1|]; [apply IH | reflexivity].
Qed.

(** Applies the induction hypothesis to the rest of the run. *)
Ltac use_IH :=
  match goal with
  | IH : forall k k', isActive k = true -> _, Hr : run 3 _ ?k1 = Some ?k2
    |- _ =>
      destruct (IH k1 k2) as [I1 I2];
      [ first [reflexivity | assumption] | cbn; lia | assumption
      | exact Hr | ];
      cbn [isActive state count completions] in I1, I2
  end.

(** While the parent keeps the countdown active, the counter goes down by
    one per tick, whatever the renders in between, and [onComplete] is
    called by the tick that finds the counter at 1. *)
Lemma run_active tr : forall k k',
  isActive k = true -> 1 <= count (state k) ->
  steady tr = true -> run 3 tr k = Some k' ->
  (Z.of_nat (ticks tr) < count (state k) ->
     completions k' = completions k /\ isActive k' = true
     /\ count (state k') = count (state k) - Z.of_nat (ticks tr))
  /\ (Z.of_nat (ticks tr) = count (state k) ->
     completions k' = S (completions k) /\ isActive k' = true
     /\ count (state k') = 3).
Proof.
  induction tr as [|[now ev] tr IH]; intros k k' Ha Hc Hs Hr.
  - cbn [run] in Hr. injection Hr as <-.
    change (ticks []) with 0%nat. split; intros H.
    + split; [reflexivity|]. split; [exact Ha | lia].
    + lia.
  - cbn [steady forallb] in Hs. apply andb_prop in Hs.
    destruct Hs as [He Hs]. fold (steady tr) in Hs.
    rewrite ticks_cons. cbn [run] in Hr.
    destruct ev as [b| |]; [discriminate He| |]; cbn [step] in Hr.
    + rewrite Ha in Hr. cbn [effect negb] in Hr. use_IH.
      split; assumption.
    + destruct (tick_enabled now (state k)); [|discriminate Hr].
      unfold tick in Hr. destruct (Z.leb_spec (count (state k)) 1) as [L|L];
        use_IH.
      * split; intros H; [lia|].
        destruct I1 as (J1 & J2 & J3); [lia|].
        split; [exact J1|]. split; [exact J2 | lia].
      * split; intros H.
        -- destruct I1 as (J1 & J2 & J3); [lia|].
           split; [exact J1|]. split; [exact J2 | lia].
        -- destruct I2 as (J1 & J2 & J3); [lia|].
           split; [exact J1|]. split; [exact J2 | exact J3].
Qed.

End CountdownFacts.

(** C8: after an activation with duration 3, [onComplete] has not been
    called before the third tick and has been called once at the third tick;
    in [App] that call ends the activation, and no tick is pending after it.
    When the parent withdraws [isActive] before the third tick, [onComplete]
    has not been called, the counter is back at the duration and no tick is
    pending. *)
Theorem countdown_completes_on_third_tick
  (t0 : Z) (tr : list (Z * CountdownTimer.Event)) :
  CountdownTimer.steady tr = true ->
  (forall k',
     CountdownTimer.run 3 ((t0, CountdownTimer.SetActive true) :: tr)
                        (CountdownTimer.mounted 3) = Some k' ->
     ((CountdownTimer.ticks tr < 3)%nat ->
        CountdownTimer.completions k' = 0%nat)
     /\ (CountdownTimer.ticks tr = 3%nat ->
        CountdownTimer.completions k' = 1%nat))
  /\ (forall t1 k',
        (CountdownTimer.ticks tr < 3)%nat ->
        CountdownTimer.run 3
          ((t0, CountdownTimer.SetActive true)
             :: tr ++ [(t1, CountdownTimer.SetActive false)])%list
          (CountdownTimer.mounted 3) = Some k' ->
        CountdownTimer.completions k' = 0%nat
        /\ CountdownTimer.state k' = CountdownTimer.mount 3
        /\ forall t2, CountdownTimer.step 3 t2 CountdownTimer.Tick k' = None)
  /\ (forall s now r,
        App.isCountdownActive s = true ->
        snd (App.step now (App.Tick r) s) = Some App.Completed ->
        App.isCountdownActive (fst (App.step now (App.Tick r) s)) = false
        /\ App.countdown (fst (App.step now (App.Tick r) s))
           = CountdownTimer.mount 3
        /\ forall t2,
             App.enabled t2 (App.Tick r) (fst (App.step now (App.Tick r) s))
             = false).
Proof.
  intros Hs.
  set (k0 := {| CountdownTimer.isActive := true;
                CountdownTimer.state :=
                  {| CountdownTimer.count := 3;
                     CountdownTimer.timer := Some t0 |};
                CountdownTimer.completions := 0 |}).
  split; [|split].
  - intros k' Hr. cbn in Hr. fold k0 in Hr.
    destruct (run_active tr k0 k' eq_refl ltac:(cbn; lia) Hs Hr) as [I1 I2].
    cbn [k0 CountdownTimer.state CountdownTimer.count
         CountdownTimer.completions] in I1, I2.
    split; intros H.
    + destruct I1 as (J & _); [lia | exact J].
    + destruct I2 as (J & _); [lia | exact J].
  - intros t1 k' Ht Hr.
    change ((t0, CountdownTimer.SetActive true)
              :: tr ++ [(t1, CountdownTimer.SetActive false)])%list
      with ([(t0, CountdownTimer.SetActive true)]
              ++ tr ++ [(t1, CountdownTimer.SetActive false)])%list in Hr.
    rewrite run_app in Hr. cbn [CountdownTimer.run] in Hr.
    cbn in Hr. fold k0 in Hr. rewrite run_app in Hr.
    destruct (CountdownTimer.run 3 tr k0) as [k1|] eqn:E; [|discriminate Hr].
    destruct (run_active tr k0 k1 eq_refl ltac:(cbn; lia) Hs E) as [I1 _].
    cbn [k0 CountdownTimer.state CountdownTimer.count
         CountdownTimer.completions] in I1.
    destruct I1 as (J1 & J2 & _); [lia|].
    cbn [CountdownTimer.run CountdownTimer.step] in Hr.
    rewrite J2 in Hr. cbn in Hr. injection Hr as <-.
    cbn. rewrite J1. repeat split.
  - intros s now r Ha Ho.
    destruct s as [cv cp ica ac photos icap rf [cnt tm] susp].
    cbn in Ha. subst ica.
    unfold App.step, App.handle, CountdownTimer.tick in *.
    cbn [App.countdown CountdownTimer.count] in *.
    destruct (cnt <=? 1); cbn in Ho; [|discriminate Ho].
    destruct cv; cbn; repeat split.
Qed.

Lemma countdown_completes_on_third_tick_witness :
  CountdownTimer.steady Samples.threeTicks = true
  /\ CountdownTimer.ticks Samples.threeTicks = 3%nat
  /\ exists k',
       CountdownTimer.run 3
         ((0, CountdownTimer.SetActive true) :: Samples.threeTicks)
         (CountdownTimer.mounted 3) = Some k'
       /\ CountdownTimer.completions k' = 1%nat.
Proof.
  split; [reflexivity|]. split; [reflexivity|].
  eexists. split; [reflexivity|].
  apply (proj1 (countdown_completes_on_third_tick 0 Samples.threeTicks eq_refl)
           _ eq_refl).
  reflexivity.
Defined.

(** Two ticks, then the parent withdraws [isActive]. *)
Example countdown_cancelled_after_two_ticks :
  exists k',
    CountdownTimer.run 3
      ((0, CountdownTimer.SetActive true)
         :: Samples.twoTicks ++ [(2500, CountdownTimer.SetActive false)])%list
      (CountdownTimer.mounted 3) = Some k'
    /\ CountdownTimer.completions k' = 0%nat
    /\ CountdownTimer.state k' = CountdownTimer.mount 3
    /\ CountdownTimer.step 3 3000 CountdownTimer.Tick k' = None.
Proof. eexists. repeat split. Qed.

(** * Further properties *)

(** ** The score of a frame *)

Lemma sumQ_bounds (f : nat -> Q) (lo hi : Q) (m : nat) : forall a,
  (forall k, (a <= k < a + m)%nat -> (lo <= f k <= hi)%Q) ->
  (inject_Z (Z.of_nat m) * lo <= PhotoQuality.sumQ f a m)%Q
  /\ (PhotoQuality.sumQ f a m <= inject_Z (Z.of_nat m) * hi)%Q.
Proof.
  induction m as [|m IH]; intros a H.
  - cbn [PhotoQuality.sumQ Z.of_nat]. change (inject_Z 0) with 0%Q.
    split; lra.
  - cbn [PhotoQuality.sumQ].
    destruct (H a ltac:(lia)) as [H1 H2].
    destruct (IH (S a)) as [I1 I2]; [intros k Hk; apply H; lia|].
    rewrite Nat2Z.inj_succ. unfold Z.succ. rewrite inject_Z_plus.
    change (inject_Z 1) with 1%Q. split; lra.
Qed.

Lemma byte_nth (data : PhotoQuality.PixelData) (i : nat) :
  Forall (fun v => 0 <= v <= 255) data ->
  (0 <= inject_Z (nth i data 0%Z) <= 255)%Q.
Proof.
  intros HB.
  assert (H : 0 <= nth i data 0 <= 255).
  { destruct (Nat.lt_ge_cases i (List.length data)) as [L|L].
    - rewrite Forall_forall in HB. apply HB. now apply nth_In.
    - rewrite nth_overflow by exact L. lia. }
  destruct H as [H1 H2]. split.
  - change 0%Q with (inject_Z 0). now rewrite <- Zle_Qle.
  - change 255%Q with (inject_Z 255). now rewrite <- Zle_Qle.
Qed.

Section FrameScore.

Import PhotoQuality.

Variables (data : PixelData) (n : nat).
Hypothesis Hlen : pixels n data.
Hypothesis Hpos : (0 < n)%nat.
Hypothesis Hbytes : Forall (fun v => 0 <= v <= 255) data.

Lemma pixelBrightness_range k : (0 <= pixelBrightness data k <= 255)%Q.
Proof.
  unfold pixelBrightness.
  pose proof (byte_nth data (4 * k) Hbytes).
  pose proof (byte_nth data (4 * k + 1) Hbytes).
  pose proof (byte_nth data (4 * k + 2) Hbytes).
  split.
  - apply Qle_shift_div_l; [reflexivity | lra].
  - apply Qle_shift_div_r; [reflexivity | lra].
Qed.

Lemma edgeTerm_range k : (0 <= edgeTerm data k <= 255)%Q.
Proof.
  unfold edgeTerm. destruct (4 * k + 4 <? List.length data)%nat; [|split; lra].
  pose proof (pixelBrightness_range k).
  pose proof (pixelBrightness_range (k + 1)).
  split; [apply Qabs_nonneg|].
  apply Qabs_Qle_condition. split; lra.
Qed.

Lemma count_positive : (0 < inject_Z (Z.of_nat n))%Q.
Proof. change 0%Q with (inject_Z 0). rewrite <- Zlt_Qlt. lia. Qed.

Lemma mean_range (f : nat -> Q) :
  (forall k, (0 <= f k <= 255)%Q) ->
  (0 <= sumQ f 0 n / inject_Z (Z.of_nat n) <= 255)%Q.
Proof.
  intros Hf. pose proof count_positive as Hn.
  destruct (sumQ_bounds f 0 255 n 0%nat) as [S1 S2]; [intros; apply Hf|].
  split.
  - apply Qle_shift_div_l; [exact Hn|]. lra.
  - apply Qle_shift_div_r; [exact Hn|]. lra.
Qed.

Lemma brightness_term_range :
  (0 <= 1 - Qabs (sumQ (pixelBrightness data) 0 n / inject_Z (Z.of_nat n)
                    - 128) / 128 <= 1)%Q.
Proof.
  destruct (mean_range _ pixelBrightness_range) as [M1 M2].
  set (avg := (sumQ (pixelBrightness data) 0 n / inject_Z (Z.of_nat n))%Q) in *.
  assert (A1 : (0 <= Qabs (avg - 128))%Q) by apply Qabs_nonneg.
  assert (A2 : (Qabs (avg - 128) <= 128)%Q)
    by (apply Qabs_Qle_condition; split; lra).
  assert (D1 : (0 <= Qabs (avg - 128) / 128)%Q)
    by (apply Qle_shift_div_l; [reflexivity | lra]).
  assert (D2 : (Qabs (avg - 128) / 128 <= 1)%Q)
    by (apply Qle_shift_div_r; [reflexivity | lra]).
  split; lra.
Qed.

Lemma sharpness_term_range :
  (0 <= Qmin (sumQ (edgeTerm data) 0 n / inject_Z (Z.of_nat n) / 20) 1
   <= 1)%Q.
Proof.
  destruct (mean_range _ edgeTerm_range) as [M1 M2].
  split.
  - apply Q.min_glb; [|discriminate].
    apply Qle_shift_div_l; [reflexivity | lra].
  - apply Q.le_min_r.
Qed.

End FrameScore.



(** X2: on a buffer of [n > 0] pixels of bytes the brightness score, the
    sharpness score and the quality score all lie between 0 and 1. *)
Theorem calculatePhotoQuality_in_unit_interval
  (data : PhotoQuality.PixelData) (n : nat) :
  PhotoQuality.pixels n data -> (0 < n)%nat ->
  Forall (fun v => 0 <= v <= 255) data ->
  exists b s q,
    JS.is_num (PhotoQuality.brightnessScore data) b /\ (0 <= b <= 1)%Q
    /\ JS.is_num (PhotoQuality.sharpnessScore data) s /\ (0 <= s <= 1)%Q
    /\ JS.is_num (PhotoQuality.calculatePhotoQuality data) q
    /\ (0 <= q <= 1)%Q.
Proof.
  intros Hlen Hpos Hbytes.
  pose proof (brightness_term_range data n Hpos Hbytes) as HB.
  pose proof (sharpness_term_range data n Hpos Hbytes) as HS.
  eexists. eexists. eexists.
  split; [exact (brightnessScore_pixels data n Hlen Hpos)|].
  split; [exact HB|].
  split; [exact (sharpnessScore_pixels data n Hlen Hpos)|].
  split; [exact HS|].
  split; [exact (calculatePhotoQuality_pixels data n Hlen Hpos)|].
  split.
  - apply Qle_shift_div_l; [reflexivity | lra].
  - apply Qle_shift_div_r; [reflexivity | lra].
Qed.

Lemma calculatePhotoQuality_in_unit_interval_witness :
  PhotoQuality.pixels 2 Fixtures.twoTone
  /\ Forall (fun v => 0 <= v <= 255) Fixtures.twoTone
  /\ exists q,
       JS.is_num (PhotoQuality.calculatePhotoQuality Fixtures.twoTone) q
       /\ (0 <= q <= 1)%Q.
Proof.
  assert (HB : Forall (fun v => 0 <= v <= 255) Fixtures.twoTone)
    by (repeat constructor; discriminate).
  split; [reflexivity|]. split; [exact HB|].
  destruct (calculatePhotoQuality_in_unit_interval Fixtures.twoTone 2 eq_refl
              (Nat.lt_0_succ 1) HB) as (b & s & q & _ & _ & _ & _ & Hq & Hr).
  exists q. split; [exact Hq | exact Hr].
Defined.

Lemma fold_left_ext_in {A B : Type} (f g : A -> B -> A) (l : list B) :
  (forall a b, In b l -> f a b = g a b) ->
  forall a, fold_left f l a = fold_left g l a.
Proof.
  induction l as [|b l IH]; intros H a; [reflexivity|].
  cbn [fold_left]. rewrite (H a b) by now left.
  apply IH. intros a' b' Hb. apply H. now right.
Qed.

(** X3: the alpha bytes do not count: two buffers of [n] pixels with the
    same red, green and blue bytes get the same score. *)
Theorem calculatePhotoQuality_ignores_alpha
  (data data' : PhotoQuality.PixelData) (n : nat) :
  PhotoQuality.pixels n data -> PhotoQuality.pixels n data' ->
  (forall k c, (k < n)%nat -> (c < 3)%nat ->
     nth_error data (4 * k + c) = nth_error data' (4 * k + c)) ->
  PhotoQuality.calculatePhotoQuality data
  = PhotoQuality.calculatePhotoQuality data'.
Proof.
  intros Hlen Hlen' Hrgb. unfold PhotoQuality.pixels in *.
  assert (HB : forall k, (k < n)%nat ->
            PhotoQuality.brightnessAt data (4 * k)
            = PhotoQuality.brightnessAt data' (4 * k)).
  { intros k Hk. unfold PhotoQuality.brightnessAt, PhotoQuality.get.
    rewrite <- (Hrgb k 1%nat Hk), <- (Hrgb k 2%nat Hk) by lia.
    replace (4 * k)%nat with (4 * k + 0)%nat at 1 4 by lia.
    rewrite <- (Hrgb k 0%nat Hk) by lia.
    replace (4 * k + 0)%nat with (4 * k)%nat by lia. reflexivity. }
  assert (HS : PhotoQuality.scan data = PhotoQuality.scan data').
  { unfold PhotoQuality.scan. rewrite Hlen, Hlen'.
    apply fold_left_ext_in. intros [T E] i Hi.
    unfold PhotoQuality.indices in Hi. apply in_map_iff in Hi.
    destruct Hi as (k & <- & Hk). apply in_seq in Hk.
    assert (Hkn : (k < n)%nat).
    { assert (Hd : ((4 * n + 3) / 4 = n)%nat)
        by (symmetry; apply Nat.div_unique with (r := 3%nat); lia).
      rewrite Hd in Hk. lia. }
    unfold PhotoQuality.body. rewrite Hlen, Hlen', (HB k Hkn).
    destruct (Z.ltb_spec (Z.of_nat (4 * k)) (Z.of_nat (4 * n) - 4));
      [|reflexivity].
    replace (4 * k + 4)%nat with (4 * (k + 1))%nat by lia.
    rewrite (HB (k + 1)%nat) by lia. reflexivity. }
  unfold PhotoQuality.calculatePhotoQuality, PhotoQuality.brightnessScore,
    PhotoQuality.sharpnessScore, PhotoQuality.avgBrightness,
    PhotoQuality.normalizedEdgeStrength, PhotoQuality.pixelCount.
  now rewrite HS, Hlen, Hlen'.
Qed.

Lemma calculatePhotoQuality_ignores_alpha_witness :
  PhotoQuality.pixels 2 Fixtures.twoTone
  /\ PhotoQuality.pixels 2 Fixtures.twoToneFaded
  /\ Fixtures.twoTone <> Fixtures.twoToneFaded
  /\ PhotoQuality.calculatePhotoQuality Fixtures.twoTone
     = PhotoQuality.calculatePhotoQuality Fixtures.twoToneFaded.
Proof.
  split; [reflexivity|]. split; [reflexivity|]. split; [discriminate|].
  apply (calculatePhotoQuality_ignores_alpha Fixtures.twoTone
           Fixtures.twoToneFaded 2 eq_refl eq_refl).
  intros k c Hk Hc.
  destruct k as [|[|k]]; [| |lia];
    (destruct c as [|[|[|c]]]; [reflexivity | reflexivity | reflexivity | lia]).
Defined.

(** ** The photo store: removal and the best photos *)

Section StoreFacts.

Import PhotoCapture.

Lemma removePhoto_absent i l :
  ~ In i (map id l) -> removePhoto i l = l.
Proof.
  unfold removePhoto. induction l as [|p l IH]; intros H; [reflexivity|].
  cbn [filter]. destruct (String.eqb_spec (id p) i) as [E|E].
  - exfalso. apply H. now left.
  - cbn [negb]. f_equal. apply IH. intros Hi. apply H. now right.
Qed.

Lemma removePhoto_app i l1 l2 :
  removePhoto i (l1 ++ l2) = (removePhoto i l1 ++ removePhoto i l2)%list.
Proof. unfold removePhoto. apply filter_app. Qed.

Lemma insert_front a l :
  Forall (fun b => (qualityScore b <= qualityScore a)%Q) l ->
  insert a l = a :: l.
Proof.
  destruct l as [|b l]; [reflexivity|]. intros H.
  cbn [insert]. inversion H as [|? ? Hb _]; subst.
  apply compareFn_nonpos in Hb. now rewrite Hb.
Qed.

Lemma filter_insert (f : CapturedPhoto -> bool) a l :
  descending l ->
  filter f (insert a l)
  = if f a then insert a (filter f l) else filter f l.
Proof.
  unfold descending. induction 1 as [|b l Hs IH Hb].
  - cbn. now destruct (f a).
  - cbn [insert]. destruct (JS.Qltb 0 (compareFn a b)) eqn:E.
    + cbn [filter]. rewrite IH. destruct (f b), (f a); try reflexivity.
      cbn [insert]. now rewrite E.
    + apply compareFn_nonpos in E.
      cbn [filter]. destruct (f a); [|reflexivity].
      symmetry. apply insert_front.
      apply Forall_forall. intros c Hc.
      assert (Hc' : In c (b :: l)).
      { destruct (f b); [|right; exact (proj1 (proj1 (filter_In _ _ _) Hc))].
        destruct Hc as [<-|Hc]; [now left|].
        right. exact (proj1 (proj1 (filter_In _ _ _) Hc)). }
      destruct Hc' as [<-|Hc']; [exact E|].
      rewrite Forall_forall in Hb.
      apply Qle_trans with (qualityScore b); [now apply Hb | exact E].
Qed.

(** Sorting by score and dropping photos commute. *)
Lemma sort_filter (f : CapturedPhoto -> bool) l :
  sort (filter f l) = filter f (sort l).
Proof.
  induction l as [|a l IH]; [reflexivity|].
  cbn [sort filter]. rewrite filter_insert by apply sort_descending.
  destruct (f a); [cbn [sort]; now rewrite IH | exact IH].
Qed.

Lemma firstn_filter_all {A : Type} (f : A -> bool) n : forall l,
  forallb f (firstn n l) = true -> firstn n (filter f l) = firstn n l.
Proof.
  induction n as [|n IH]; intros [|a l] H; try reflexivity.
  cbn [firstn forallb] in H. apply andb_prop in H. destruct H as [Ha H].
  cbn [filter]. rewrite Ha. cbn [firstn]. f_equal. now apply IH.
Qed.

End StoreFacts.

(** X4: removing an id that no photo carries changes nothing, and removing
    the id of a photo just added to a collection without that id gives the
    collection back. *)
Theorem removePhoto_absent_and_undo
  (photo : CapturedPhoto) (photos : list CapturedPhoto) :
  ~ In (id photo) (map id photos) ->
  PhotoCapture.removePhoto (id photo) photos = photos
  /\ PhotoCapture.removePhoto (id photo) (PhotoCapture.addPhoto photo photos)
     = photos.
Proof.
  intros H. split; [now apply removePhoto_absent|].
  unfold PhotoCapture.addPhoto. rewrite removePhoto_app.
  rewrite (removePhoto_absent _ _ H).
  unfold PhotoCapture.removePhoto. cbn [filter].
  rewrite String.eqb_refl. cbn [negb]. apply app_nil_r.
Qed.

Lemma removePhoto_absent_and_undo_witness :
  ~ In (id (Samples.photo "new" (3 # 10))) (map id Samples.threePhotos)
  /\ PhotoCapture.removePhoto "new"
       (PhotoCapture.addPhoto (Samples.photo "new" (3 # 10))
                              Samples.threePhotos)
     = Samples.threePhotos.
Proof.
  assert (H : ~ In (id (Samples.photo "new" (3 # 10)))
                   (map id Samples.threePhotos)).
  { cbn. intros H. repeat (destruct H as [H|H]; [discriminate H|]). exact H. }
  split; [exact H|].
  exact (proj2 (removePhoto_absent_and_undo _ _ H)).
Defined.

(** X5: [removePhoto] removes every photo that carries the id, however
    many there are, and leaves the photos of any other id as they were, in
    their order. *)
Theorem removePhoto_removes_all_with_id
  (i j : string) (photos : list CapturedPhoto) :
  Runs.with_id i (PhotoCapture.removePhoto i photos) = []
  /\ (j <> i ->
      Runs.with_id j (PhotoCapture.removePhoto i photos)
      = Runs.with_id j photos).
Proof.
  unfold Runs.with_id, PhotoCapture.removePhoto.
  induction photos as [|p l [IH1 IH2]]; [split; reflexivity|].
  cbn [filter]. split.
  - destruct (String.eqb_spec (id p) i) as [E|E]; cbn [negb filter].
    + exact IH1.
    + apply String.eqb_neq in E. now rewrite E.
  - intros Hj. specialize (IH2 Hj).
    destruct (String.eqb_spec (id p) i) as [E|E]; cbn [negb filter].
    + assert (Ej : String.eqb (id p) j = false)
        by (apply String.eqb_neq; congruence).
      now rewrite Ej.
    + now rewrite IH2.
Qed.

Lemma removePhoto_removes_all_with_id_witness :
  "p5" <> "p3"
  /\ Runs.with_id "p5" (PhotoCapture.removePhoto "p3" Fixtures.sixPhotos)
     = Runs.with_id "p5" Fixtures.sixPhotos.
Proof.
  assert (H : "p5" <> "p3") by discriminate.
  split; [exact H|].
  exact (proj2 (removePhoto_removes_all_with_id "p3" "p5" Fixtures.sixPhotos)
           H).
Defined.

(** X6: with a negative count [-k], [getBestPhotos] returns the collection
    sorted best first without its last [k] photos (all of them gone when
    [k] exceeds the size). *)
Theorem getBestPhotos_negative_count
  (photos : list CapturedPhoto) (k : nat) :
  (0 < k)%nat ->
  let best := PhotoCapture.getBestPhotos (- Z.of_nat k) photos in
  List.length best = (List.length photos - k)%nat
  /\ exists dropped,
       List.length dropped = Nat.min k (List.length photos)
       /\ Permutation (best ++ dropped)%list photos
       /\ PhotoCapture.descending (best ++ dropped)%list.
Proof.
  intros Hk best. subst best. unfold PhotoCapture.getBestPhotos, JS.slice0.
  pose proof (Permutation_length (sort_perm photos)) as HL.
  destruct (Z.ltb_spec (- Z.of_nat k) 0) as [L|L]; [|lia].
  set (m := Z.to_nat (Z.max (Z.of_nat (List.length (PhotoCapture.sort photos))
                             + - Z.of_nat k) 0)).
  assert (Hm : m = (List.length photos - k)%nat) by (subst m; lia).
  rewrite Hm. split.
  - rewrite length_firstn. lia.
  - exists (skipn (List.length photos - k) (PhotoCapture.sort photos)).
    rewrite firstn_skipn. split; [|split].
    + rewrite length_skipn. lia.
    + apply sort_perm.
    + apply sort_descending.
Qed.

Lemma getBestPhotos_negative_count_witness :
  (0 < 2)%nat
  /\ map id (PhotoCapture.getBestPhotos (-2) Fixtures.sixPhotos)
     = ["p2"; "p4"; "p3"; "p5"]
  /\ List.length (PhotoCapture.getBestPhotos (-2) Fixtures.sixPhotos)
     = (6 - 2)%nat.
Proof.
  split; [exact (Nat.lt_0_succ 1)|]. split; [reflexivity|].
  exact (proj1 (getBestPhotos_negative_count Fixtures.sixPhotos 2
                  (Nat.lt_0_succ 1))).
Defined.

(** X7: removing a photo whose id is not among the best [n] leaves the best
    [n] as they were. *)
Theorem getBestPhotos_after_removePhoto
  (photos : list CapturedPhoto) (n : nat) (i : string) :
  ~ In i (map id (PhotoCapture.getBestPhotos (Z.of_nat n) photos)) ->
  PhotoCapture.getBestPhotos (Z.of_nat n) (PhotoCapture.removePhoto i photos)
  = PhotoCapture.getBestPhotos (Z.of_nat n) photos.
Proof.
  unfold PhotoCapture.getBestPhotos. rewrite !slice0_nat. intros H.
  unfold PhotoCapture.removePhoto. rewrite sort_filter.
  apply firstn_filter_all. apply forallb_forall. intros p Hp.
  apply negb_true_iff. apply String.eqb_neq. intros E. apply H.
  rewrite <- E. now apply in_map.
Qed.

Lemma getBestPhotos_after_removePhoto_witness :
  ~ In "p6" (map id (PhotoCapture.getBestPhotos 4 Fixtures.sixPhotos))
  /\ PhotoCapture.getBestPhotos 4
       (PhotoCapture.removePhoto "p6" Fixtures.sixPhotos)
     = PhotoCapture.getBestPhotos 4 Fixtures.sixPhotos.
Proof.
  assert (H : ~ In "p6"
                (map id (PhotoCapture.getBestPhotos (Z.of_nat 4)
                           Fixtures.sixPhotos))).
  { cbn. intros H. repeat (destruct H as [H|H]; [discriminate H|]). exact H. }
  split; [exact H|].
  exact (getBestPhotos_after_removePhoto Fixtures.sixPhotos 4 "p6" H).
Defined.

(** ** What [App] shows: stars, recent captures and the page of the best *)

Lemma isBestPhoto_In (best : list CapturedPhoto) (p : CapturedPhoto) :
  In p best -> PhotoGrid.isBestPhoto best p = true.
Proof.
  intros H. unfold PhotoGrid.isBestPhoto. apply existsb_exists.
  exists p. split; [exact H | apply String.eqb_refl].
Qed.

(** X8: every photo that [getBestPhotos(4)] returns carries the star, so
    with four photos or fewer every photo does; and a photo carries the star
    only if it shares its id with one of the best. *)
Theorem isBestPhoto_marks_best
  (photos : list CapturedPhoto) (p : CapturedPhoto) :
  (In p (AppView.bestPhotos photos) ->
   PhotoGrid.isBestPhoto (AppView.bestPhotos photos) p = true)
  /\ ((List.length photos <= 4)%nat -> In p photos ->
      PhotoGrid.isBestPhoto (AppView.bestPhotos photos) p = true)
  /\ (PhotoGrid.isBestPhoto (AppView.bestPhotos photos) p = true ->
      exists b, In b (AppView.bestPhotos photos) /\ id b = id p).
Proof.
  split; [apply isBestPhoto_In|]. split.
  - intros Hl Hp. apply isBestPhoto_In.
    unfold AppView.bestPhotos, PhotoCapture.getBestPhotos.
    change 4 with (Z.of_nat 4). rewrite slice0_nat.
    rewrite firstn_all2
      by (rewrite (Permutation_length (sort_perm photos)); exact Hl).
    apply (Permutation_in _ (Permutation_sym (sort_perm photos)) Hp).
  - intros H. unfold PhotoGrid.isBestPhoto in H.
    apply existsb_exists in H. destruct H as (b & Hb & E).
    exists b. split; [exact Hb | now apply String.eqb_eq].
Qed.

Lemma isBestPhoto_marks_best_witness :
  (List.length Samples.threePhotos <= 4)%nat
  /\ In (Samples.photo "a" (2 # 10)) Samples.threePhotos
  /\ PhotoGrid.isBestPhoto (AppView.bestPhotos Samples.threePhotos)
                           (Samples.photo "a" (2 # 10)) = true.
Proof.
  assert (Hl : (List.length Samples.threePhotos <= 4)%nat)
    by (apply Nat.leb_le; reflexivity).
  assert (Hp : In (Samples.photo "a" (2 # 10)) Samples.threePhotos)
    by (left; reflexivity).
  split; [exact Hl|]. split; [exact Hp|].
  exact (proj1 (proj2 (isBestPhoto_marks_best Samples.threePhotos
                         (Samples.photo "a" (2 # 10)))) Hl Hp).
Defined.

(** X9: the grid of recent captures shows the last four photos in the order
    of capture, and all of them when there are four or fewer. *)
Theorem recentCaptures_last_four (photos : list CapturedPhoto) :
  List.length (AppView.recentCaptures photos)
  = Nat.min 4 (List.length photos)
  /\ exists older,
       photos = (older ++ AppView.recentCaptures photos)%list
       /\ List.length older = (List.length photos - 4)%nat.
Proof.
  unfold AppView.recentCaptures, AppView.slice_from.
  destruct (Z.ltb_spec (-4) 0) as [_|L]; [|lia].
  set (k := Z.to_nat (Z.max (Z.of_nat (List.length photos) + -4) 0)).
  assert (Hk : k = (List.length photos - 4)%nat) by (subst k; lia).
  rewrite Hk. split.
  - rewrite length_skipn. lia.
  - exists (firstn (List.length photos - 4) photos). split.
    + symmetry. apply firstn_skipn.
    + rewrite length_firstn. lia.
Qed.

(** X10: the page that [App] asks for holds the best photos only: at most
    four images, best first, all in the top row, the [k]-th in column [k]. *)
Theorem layout_of_best_photos (photos : list CapturedPhoto) :
  photos <> [] ->
  exists ops,
    AppView.layout true true photos = Some ops
    /\ List.length (LayoutGenerator.images ops)
       = Nat.min (List.length photos) 4
    /\ forall k, (k < Nat.min (List.length photos) 4)%nat ->
         exists p op,
           nth_error (AppView.bestPhotos photos) k = Some p
           /\ nth_error (LayoutGenerator.images ops) k = Some op
           /\ LayoutGenerator.fills_slot op (dataUrl p) 0 (Z.of_nat k).
Proof.
  intros Hne. unfold AppView.layout.
  assert (HL : List.length (AppView.bestPhotos photos)
               = Nat.min (List.length photos) 4).
  { unfold AppView.bestPhotos, PhotoCapture.getBestPhotos.
    change 4 with (Z.of_nat 4). rewrite slice0_nat, length_firstn.
    rewrite (Permutation_length (sort_perm photos)). apply Nat.min_comm. }
  destruct (LayoutGenerator.generateLayout true true
              (AppView.bestPhotos photos)) as [ops|] eqn:G.
  2:{ unfold LayoutGenerator.generateLayout in G. cbn [negb orb] in G.
      destruct (Z.eqb_spec (Z.of_nat (List.length (AppView.bestPhotos photos))) 0)
        as [E|E]; [|discriminate G].
      destruct photos; [congruence|]. cbn [List.length] in HL. lia. }
  exists ops. split; [reflexivity|].
  pose proof (images_generateLayout _ _ G) as HI.
  rewrite firstn_all2 in HI by lia.
  split.
  - rewrite HI. unfold JS.mapi. now rewrite length_mapi_from.
  - intros k Hk.
    destruct (nth_error (AppView.bestPhotos photos) k) as [p|] eqn:Ep.
    2:{ apply nth_error_None in Ep. lia. }
    exists p, (LayoutGenerator.imageOf p (Z.of_nat k)).
    split; [reflexivity|]. split.
    + rewrite HI. unfold JS.mapi.
      exact (nth_error_mapi_from LayoutGenerator.imageOf _ 0 k p Ep).
    + pose proof (imageOf_fills_slot p (Z.of_nat k) ltac:(lia)) as F.
      rewrite Z.div_small, Z.mod_small in F by lia. exact F.
Qed.

Lemma layout_of_best_photos_witness :
  Fixtures.sixPhotos <> []
  /\ exists ops,
       AppView.layout true true Fixtures.sixPhotos = Some ops
       /\ List.length (LayoutGenerator.images ops) = 4%nat.
Proof.
  assert (Hne : Fixtures.sixPhotos <> []) by discriminate.
  split; [exact Hne|].
  destruct (layout_of_best_photos Fixtures.sixPhotos Hne) as (ops & G & L & _).
  exists ops. split; [exact G | exact L].
Defined.

(** ** The geometry of the page *)

Section PageGeometry.

Import LayoutGenerator.

Lemma generateLayout_ops photos ops :
  generateLayout true true photos = Some ops ->
  ops = (FillRect "white" 0 0 (inject_Z pageWidth) (inject_Z pageHeight)
         :: List.concat (JS.mapi drawPhoto (firstn 25 photos))
         ++ map verticalGuide [1; 2; 3; 4]
         ++ map horizontalGuide [1; 2; 3; 4])%list.
Proof.
  unfold generateLayout. cbn [negb orb].
  destruct (Z.of_nat (List.length photos) =? 0); [discriminate|].
  intros H. injection H as <-.
  change totalSlots with (Z.of_nat 25). now rewrite slice0_nat.
Qed.

Lemma In_drawPhotos op l : forall i,
  In op (List.concat (JS.mapi_from drawPhoto i l)) ->
  exists k p, nth_error l k = Some p /\ In op (drawPhoto p (i + Z.of_nat k)).
Proof.
  intros i H. apply in_concat in H. destruct H as (ops & Hops & Hop).
  apply In_mapi_from in Hops. destruct Hops as (k & p & Hk & ->).
  now exists k, p.
Qed.

(** An image on the page is the image of one of the first 25 photos, in
    the slot of its index. *)
Lemma image_on_page photos ops src px py w h :
  generateLayout true true photos = Some ops ->
  In (DrawImage src px py w h) ops ->
  exists k, (k < 25)%nat
    /\ fills_slot (DrawImage src px py w h) src
                  (Z.of_nat k / 5) (Z.of_nat k mod 5).
Proof.
  intros G H. rewrite (generateLayout_ops _ _ G) in H.
  destruct H as [H|H]; [discriminate H|].
  apply in_app_or in H. destruct H as [H|H].
  - unfold JS.mapi in H. apply In_drawPhotos in H.
    destruct H as (k & p & Hk & Hop).
    assert (Hlt : (k < 25)%nat).
    { assert (Hl : (k < List.length (firstn 25 photos))%nat)
        by (apply nth_error_Some; congruence).
      rewrite length_firstn in Hl. lia. }
    exists k. split; [exact Hlt|].
    destruct Hop as [Hop|[Hop|[]]]; [|discriminate Hop].
    pose proof (imageOf_fills_slot p (0 + Z.of_nat k) ltac:(lia)) as F.
    unfold imageOf in F. cbn [drawPhoto hd] in F.
    rewrite Hop in F. cbn [fills_slot] in F |- *.
    destruct F as (E & F). cbn [Z.add] in F.
    split; [reflexivity | exact F].
  - exfalso. cbn in H.
    repeat (destruct H as [H|H]; [discriminate H|]). exact H.
Qed.

Lemma slot_column_range k :
  (0 <= inject_Z (Z.of_nat k mod 5) <= 4)%Q.
Proof.
  pose proof (Z.mod_pos_bound (Z.of_nat k) 5 ltac:(lia)) as [H1 H2].
  split.
  - change 0%Q with (inject_Z 0). rewrite <- Zle_Qle. lia.
  - change 4%Q with (inject_Z 4). rewrite <- Zle_Qle. lia.
Qed.

Lemma slot_row_range k :
  (k < 25)%nat -> (0 <= inject_Z (Z.of_nat k / 5) <= 4)%Q.
Proof.
  intros Hk.
  assert (H : 0 <= Z.of_nat k / 5 <= 4).
  { split; [apply Z.div_pos; lia|].
    apply Z.lt_succ_r. apply Z.div_lt_upper_bound; lia. }
  split.
  - change 0%Q with (inject_Z 0). rewrite <- Zle_Qle. lia.
  - change 4%Q with (inject_Z 4). rewrite <- Zle_Qle. lia.
Qed.

Lemma slotX_linear c : slotX c == (175 # 2) + 473 * inject_Z c.
Proof. unfold slotX. rewrite inject_Z_mult. reflexivity. Qed.

Lemma slotY_linear r : slotY r == (613 # 2) + 591 * inject_Z r.
Proof. unfold slotY. rewrite inject_Z_mult. reflexivity. Qed.

Lemma inject_Z_le_succ a b : a < b -> (inject_Z a + 1 <= inject_Z b)%Q.
Proof.
  intros H. change 1%Q with (inject_Z 1). rewrite <- inject_Z_plus.
  rewrite <- Zle_Qle. lia.
Qed.

End PageGeometry.

(** X11: every image lies inside the 2480 by 3508 page, 413 wide and 531
    high, and two images never overlap. *)
Theorem generateLayout_images_inside_and_apart
  (photos : list CapturedPhoto) (ops : list LayoutGenerator.DrawOp) :
  LayoutGenerator.generateLayout true true photos = Some ops ->
  (forall src px py w h,
     In (LayoutGenerator.DrawImage src px py w h) ops ->
     (w == 413 /\ h == 531
      /\ 0 <= px /\ px + w <= 2480 /\ 0 <= py /\ py + h <= 3508)%Q)
  /\ (forall i j a b, (i < j)%nat ->
        nth_error (LayoutGenerator.images ops) i = Some a ->
        nth_error (LayoutGenerator.images ops) j = Some b ->
        match a, b with
        | LayoutGenerator.DrawImage _ x1 y1 w1 h1,
          LayoutGenerator.DrawImage _ x2 y2 w2 h2 =>
            (x1 + w1 <= x2 \/ y1 + h1 <= y2)%Q
        | _, _ => False
        end).
Proof.
  intros G. split.
  - intros src px py w h H.
    destruct (image_on_page _ _ _ _ _ _ _ G H) as (k & Hk & F).
    cbn [LayoutGenerator.fills_slot] in F.
    destruct F as (_ & X & Y & W & Hh).
    rewrite slotX_linear in X. rewrite slotY_linear in Y.
    pose proof (slot_column_range k) as [C1 C2].
    pose proof (slot_row_range k Hk) as [R1 R2].
    rewrite X, Y, W, Hh. repeat split; lra.
  - intros i j a b Hij Ha Hb.
    pose proof (images_generateLayout _ _ G) as HI.
    rewrite HI in Ha, Hb. unfold JS.mapi in Ha, Hb.
    assert (Hj : (j < 25)%nat).
    { assert (Hl : (j < List.length
                          (JS.mapi_from LayoutGenerator.imageOf 0
                                        (firstn 25 photos)))%nat)
        by (apply nth_error_Some; congruence).
      rewrite length_mapi_from, length_firstn in Hl. lia. }
    destruct (nth_error (firstn 25 photos) i) as [p|] eqn:Ep.
    2:{ apply nth_error_None in Ep.
        assert (Hl : (i < List.length
                            (JS.mapi_from LayoutGenerator.imageOf 0
                                          (firstn 25 photos)))%nat)
          by (apply nth_error_Some; congruence).
        rewrite length_mapi_from in Hl. lia. }
    destruct (nth_error (firstn 25 photos) j) as [q|] eqn:Eq.
    2:{ apply nth_error_None in Eq.
        assert (Hl : (j < List.length
                            (JS.mapi_from LayoutGenerator.imageOf 0
                                          (firstn 25 photos)))%nat)
          by (apply nth_error_Some; congruence).
        rewrite length_mapi_from in Hl. lia. }
    rewrite (nth_error_mapi_from _ _ 0 _ _ Ep) in Ha.
    rewrite (nth_error_mapi_from _ _ 0 _ _ Eq) in Hb.
    injection Ha as <-. injection Hb as <-.
    pose proof (imageOf_fills_slot p (0 + Z.of_nat i) ltac:(lia)) as Fi.
    pose proof (imageOf_fills_slot q (0 + Z.of_nat j) ltac:(lia)) as Fj.
    unfold LayoutGenerator.imageOf in *.
    cbn [LayoutGenerator.drawPhoto hd LayoutGenerator.fills_slot] in *.
    destruct Fi as (_ & X1 & Y1 & W1 & H1).
    destruct Fj as (_ & X2 & Y2 & W2 & H2).
    rewrite slotX_linear in X1, X2. rewrite slotY_linear in Y1, Y2.
    cbn [Z.add] in *.
    rewrite X1, X2, Y1, Y2, W1, H1.
    destruct (Z.eq_dec (Z.of_nat i / 5) (Z.of_nat j / 5)) as [E|E].
    + left.
      assert (Hc : Z.of_nat i mod 5 < Z.of_nat j mod 5).
      { pose proof (Z_div_mod_eq_full (Z.of_nat i) 5).
        pose proof (Z_div_mod_eq_full (Z.of_nat j) 5). lia. }
      pose proof (inject_Z_le_succ _ _ Hc). lra.
    + right.
      assert (Hr : Z.of_nat i / 5 < Z.of_nat j / 5).
      { assert (Z.of_nat i / 5 <= Z.of_nat j / 5)
          by (apply Z.div_le_mono; lia).
        lia. }
      pose proof (inject_Z_le_succ _ _ Hr). lra.
Qed.

Lemma generateLayout_images_inside_and_apart_witness :
  exists ops,
    LayoutGenerator.generateLayout true true Fixtures.sixPhotos = Some ops
    /\ match nth_error (LayoutGenerator.images ops) 0,
             nth_error (LayoutGenerator.images ops) 5 with
       | Some (LayoutGenerator.DrawImage _ x1 y1 w1 h1),
         Some (LayoutGenerator.DrawImage _ x2 y2 w2 h2) =>
           (x1 + w1 <= x2 \/ y1 + h1 <= y2)%Q
       | _, _ => False
       end.
Proof.
  eexists. split; [reflexivity|].
  exact (proj2 (generateLayout_images_inside_and_apart Fixtures.sixPhotos _
                  eq_refl) 0%nat 5%nat _ _ (Nat.lt_0_succ 4) eq_refl eq_refl).
Defined.




(** ** The verdict of the evaluator and the gate *)

Lemma confidence_threshold (m : nat) :
  JS.Qltb (7 # 10) (inject_Z (Z.of_nat m) / inject_Z 5) = true
  <-> (4 <= m)%nat.
Proof.
  rewrite Qltb_true. unfold Qlt, Qdiv, Qmult, Qinv, inject_Z.
  cbn [Qnum Qden]. split; intros H; lia.
Qed.

Lemma verdict_correct_iff (pose : Pose) :
  let v := PoseDetection.evaluatePoseQuality pose in
  (PoseDetection.isCorrect v = true <->
   (4 <= List.length (PoseDetection.visibleFacePoints (keypoints pose)))%nat
   /\ exists ls rs n,
        find_part "leftShoulder" (keypoints pose) = Some ls
        /\ find_part "rightShoulder" (keypoints pose) = Some rs
        /\ find_part "nose" (keypoints pose) = Some n
        /\ (Qabs (y (position ls) - y (position rs)) < 50)%Q
        /\ (200 < x (position n))%Q /\ (x (position n) < 440)%Q)
  /\ (PoseDetection.isCorrect v = true <->
      PoseDetection.message v = "Perfect pose! Stay still...").
Proof.
  intros v. subst v. unfold PoseDetection.evaluatePoseQuality. cbv zeta.
  set (m := List.length (PoseDetection.visibleFacePoints (keypoints pose))).
  change (List.length PoseDetection.requiredPoints) with 5%nat.
  change (Z.of_nat 5) with 5.
  pose proof (confidence_threshold m) as HC.
  destruct (Z.leb_spec 3 (Z.of_nat m)) as [L3|L3].
  2:{ cbn [PoseDetection.isCorrect PoseDetection.message]. split; split; try discriminate.
      intros [H _]. lia. }
  destruct (find_part "leftShoulder" (keypoints pose)) as [ls|];
    [|cbn [PoseDetection.isCorrect PoseDetection.message andb negb]; split; split; try discriminate;
      intros (_ & ? & ? & ? & H & _); discriminate H].
  destruct (find_part "rightShoulder" (keypoints pose)) as [rs|];
    [|cbn [PoseDetection.isCorrect PoseDetection.message andb negb]; split; split; try discriminate;
      intros (_ & ? & ? & ? & _ & H & _); discriminate H].
  destruct (find_part "nose" (keypoints pose)) as [n|];
    [|cbn [PoseDetection.isCorrect PoseDetection.message andb negb]; split; split; try discriminate;
      intros (_ & ? & ? & ? & _ & _ & H & _); discriminate H].
  destruct (JS.Qltb (Qabs (y (position ls) - y (position rs))) 50) eqn:E1;
    destruct (JS.Qltb 200 (x (position n))) eqn:E2;
    destruct (JS.Qltb (x (position n)) 440) eqn:E3;
    destruct (JS.Qltb (7 # 10) (inject_Z (Z.of_nat m) / inject_Z 5)) eqn:E4;
    cbn [PoseDetection.isCorrect PoseDetection.message andb negb]; (split; split; try discriminate; try reflexivity);
    try (intros _; split; [now apply HC|];
         exists ls, rs, n; repeat split; now apply Qltb_true);
    intros (Hm & ls' & rs' & n' & H1 & H2 & H3 & Q1 & Q2 & Q3);
    injection H1 as <-; injection H2 as <-; injection H3 as <-;
    apply Qltb_true in Q1, Q2, Q3; apply HC in Hm; congruence.
Qed.



(** X14: a pose that the evaluator calls correct is a good pose for the
    gate of [App], which only counts the facial landmarks. *)
Theorem correct_pose_is_good_for_gate (pose : Pose) :
  PoseDetection.isCorrect (PoseDetection.evaluatePoseQuality pose) = true ->
  App.isGoodPose pose = true.
Proof.
  intros H. apply (proj1 (verdict_correct_iff pose)) in H.
  destruct H as [H _]. unfold App.isGoodPose. apply Z.leb_le.
  change (App.visibleFacePoints pose)
    with (PoseDetection.visibleFacePoints (keypoints pose)).
  lia.
Qed.

Lemma correct_pose_is_good_for_gate_witness :
  PoseDetection.isCorrect
    (PoseDetection.evaluatePoseQuality Samples.passportPose) = true
  /\ App.isGoodPose Samples.passportPose = true.
Proof.
  split; [reflexivity|].
  exact (correct_pose_is_good_for_gate Samples.passportPose eq_refl).
Defined.

(** The converse fails: without the left shoulder the evaluator asks the
    subject to get into the frame, and the gate counts the pose as good. *)
Example good_for_gate_not_correct :
  App.isGoodPose Samples.noLeftShoulder = true
  /\ PoseDetection.isCorrect
       (PoseDetection.evaluatePoseQuality Samples.noLeftShoulder) = false.
Proof. split; reflexivity. Qed.

(** ** The pose overlay *)

Lemma find_part_In (name : string) (kps : list Keypoint) (kp : Keypoint) :
  find_part name kps = Some kp -> In kp kps.
Proof. intros H. exact (proj1 (find_some _ _ H)). Qed.

Lemma dot_of_keypoint (correct : bool) (kps : list Keypoint) (kp : Keypoint) :
  In kp kps -> JS.Qltb (3 # 10) (score kp) = true ->
  In (CameraView.Dot (CameraView.poseColor correct)
                     (x (position kp)) (y (position kp)))
     (flat_map (CameraView.drawKeypoint correct) kps).
Proof.
  intros Hin Hs. apply in_flat_map. exists kp. split; [exact Hin|].
  unfold CameraView.drawKeypoint. rewrite Hs. now left.
Qed.

(** X15: on the overlay every connection line starts and ends on a drawn
    keypoint dot of the same colour. *)
Theorem drawPose_lines_join_dots
  (canvas video ctx correct : bool) (pose : Pose)
  (marks : list CameraView.Mark) (c : string) (x1 y1 x2 y2 : Q) :
  CameraView.drawPose canvas video ctx (Some pose) correct = Some marks ->
  In (CameraView.Line c x1 y1 x2 y2) marks ->
  In (CameraView.Dot c x1 y1) marks /\ In (CameraView.Dot c x2 y2) marks.
Proof.
  unfold CameraView.drawPose.
  destruct (negb canvas || negb video); [discriminate|].
  destruct (negb ctx); [discriminate|].
  set (dots := flat_map (CameraView.drawKeypoint correct) (keypoints pose)).
  set (lines := flat_map (CameraView.drawConnection correct (keypoints pose))
                         CameraView.connections).
  intros H. assert (E : (dots ++ lines)%list = marks) by congruence.
  rewrite <- E. clear H E. subst dots lines. intros HL.
  apply in_app_or in HL. destruct HL as [HL|HL].
  - exfalso. apply in_flat_map in HL. destruct HL as (kp & _ & HL).
    unfold CameraView.drawKeypoint in HL.
    destruct (JS.Qltb (3 # 10) (score kp)); [|destruct HL].
    destruct HL as [HL|[]]. discriminate HL.
  - apply in_flat_map in HL. destruct HL as (conn & _ & HL).
    unfold CameraView.drawConnection in HL.
    destruct (find_part (fst conn) (keypoints pose)) as [sp|] eqn:Es;
      [|destruct HL].
    destruct (find_part (snd conn) (keypoints pose)) as [ep|] eqn:Ee;
      [|destruct HL].
    destruct (JS.Qltb (3 # 10) (score sp)) eqn:Ss; [|destruct HL].
    destruct (JS.Qltb (3 # 10) (score ep)) eqn:Se; [|destruct HL].
    destruct HL as [HL|[]]. injection HL as <- <- <- <- <-.
    split; apply in_or_app; left; apply dot_of_keypoint;
      eauto using find_part_In.
Qed.

Lemma drawPose_lines_join_dots_witness :
  exists marks c x1 y1 x2 y2,
    CameraView.drawPose true true true (Some Fixtures.faceOnly) false
    = Some marks
    /\ nth_error marks 3 = Some (CameraView.Line c x1 y1 x2 y2)
    /\ In (CameraView.Dot c x1 y1) marks
    /\ In (CameraView.Dot c x2 y2) marks.
Proof.
  do 6 eexists.
  split; [reflexivity|]. split; [reflexivity|].
  apply (drawPose_lines_join_dots true true true false Fixtures.faceOnly
           _ _ _ _ _ _ eq_refl).
  apply (nth_error_In _ 3). reflexivity.
Defined.

(** ** Camera errors *)

(** X16: [startCamera] and [retryCamera] describe every error in the same
    words; the description is never empty, and for the six named errors it
    does not depend on the text of the error. *)
Theorem camera_error_messages (err : Camera.Thrown) :
  Camera.startCameraMessage err = Camera.retryCameraMessage err
  /\ Camera.startCameraMessage err <> ""
  /\ forall name m1 m2,
       In name ["NotAllowedError"; "NotFoundError"; "NotReadableError";
                "OverconstrainedError"; "SecurityError"; "AbortError"] ->
       Camera.startCameraMessage (Camera.ErrorObject name m1)
       = Camera.startCameraMessage (Camera.ErrorObject name m2).
Proof.
  split; [destruct err; reflexivity|]. split.
  - destruct err as [name message|]; [|discriminate].
    unfold Camera.startCameraMessage.
    repeat match goal with
           | |- context [if ?b then _ else _] => destruct b
           end; discriminate.
  - intros name m1 m2 H. cbn [In] in H.
    repeat (destruct H as [<-|H]; [reflexivity|]). destruct H.
Qed.

Lemma camera_error_messages_witness :
  In "NotReadableError"
     ["NotAllowedError"; "NotFoundError"; "NotReadableError";
      "OverconstrainedError"; "SecurityError"; "AbortError"]
  /\ Camera.startCameraMessage (Camera.ErrorObject "NotReadableError" "one")
     = Camera.startCameraMessage (Camera.ErrorObject "NotReadableError" "two").
Proof.
  assert (H : In "NotReadableError"
                 ["NotAllowedError"; "NotFoundError"; "NotReadableError";
                  "OverconstrainedError"; "SecurityError"; "AbortError"])
    by (right; right; left; reflexivity).
  split; [exact H|].
  exact (proj2 (proj2 (camera_error_messages Camera.OtherValue))
           "NotReadableError" "one" "two" H).
Defined.

(** ** The countdown for any duration *)

Section CountdownAnyDuration.

Import CountdownTimer.

Variable d : Z.

Lemma steady_cons now ev tr :
  steady ((now, ev) :: tr) = true ->
  (forall b, ev <> SetActive b) /\ steady tr = true.
Proof.
  unfold steady. cbn [forallb]. intros H. apply andb_prop in H.
  destruct H as [He Hs]. split; [|exact Hs].
  intros b ->. discriminate He.
Qed.

(** Applies the induction hypothesis to the rest of the run. *)
Ltac rest_of_run :=
  match goal with
  | IH : forall k k', isActive k = true -> _, Hr : run _ _ ?k1 = Some ?k2
    |- _ =>
      destruct (IH k1 k2) as [I1 I2];
      [ first [reflexivity | assumption] | assumption | exact Hr | ];
      cbn [isActive state count completions] in I1, I2
  end.

(** An active countdown calls [onComplete] for the first time on tick number
    [max count 1], and then starts again from the duration. *)
Lemma run_counts tr : forall k k',
  isActive k = true -> steady tr = true -> run d tr k = Some k' ->
  (Z.of_nat (ticks tr) < Z.max (count (state k)) 1 ->
     completions k' = completions k
     /\ count (state k') = count (state k) - Z.of_nat (ticks tr))
  /\ (Z.of_nat (ticks tr) = Z.max (count (state k)) 1 ->
     completions k' = S (completions k) /\ count (state k') = d).
Proof.
  induction tr as [|[now ev] tr IH]; intros k k' Ha Hs Hr.
  - cbn [run] in Hr. injection Hr as <-. change (ticks []) with 0%nat.
    split; intros H; [split; [reflexivity | lia] | lia].
  - apply steady_cons in Hs. destruct Hs as [He Hs].
    rewrite ticks_cons. cbn [run] in Hr.
    destruct ev as [b| |]; [now destruct (He b)| |]; cbn [step] in Hr.
    + rewrite Ha in Hr. cbn [effect negb] in Hr. rest_of_run.
      split; assumption.
    + destruct (tick_enabled now (state k)); [|discriminate Hr].
      unfold tick in Hr.
      destruct (Z.leb_spec (count (state k)) 1) as [L|L]; rest_of_run.
      * split; intros H; [lia|].
        destruct I1 as [J1 J2]; [lia|]. split; [exact J1 | lia].
      * split; intros H.
        -- destruct I1 as [J1 J2]; [lia|]. split; [exact J1 | lia].
        -- apply I2. lia.
Qed.

(** Between two events that come less than 1000ms apart no tick is due. *)
Lemma run_dense tr : forall t k k',
  isActive k = true -> timer (state k) = Some t ->
  steady tr = true -> Runs.dense t tr = true -> run d tr k = Some k' ->
  ticks tr = 0%nat /\ completions k' = completions k
  /\ count (state k') = count (state k).
Proof.
  induction tr as [|[now ev] tr IH]; intros t k k' Ha Ht Hs Hd Hr.
  - cbn [run] in Hr. injection Hr as <-. repeat split.
  - apply steady_cons in Hs. destruct Hs as [He Hs].
    cbn [Runs.dense] in Hd. apply andb_prop in Hd. destruct Hd as [Hn Hd].
    apply Z.ltb_lt in Hn.
    rewrite ticks_cons. cbn [run] in Hr.
    destruct ev as [b| |]; [now destruct (He b)| |]; cbn [step] in Hr.
    + rewrite Ha in Hr. cbn [effect negb] in Hr.
      match type of Hr with
      | run _ _ ?k1 = _ =>
          destruct (IH now k1 k') as (I1 & I2 & I3);
          [reflexivity | reflexivity | exact Hs | exact Hd | exact Hr |]
      end.
      cbn [isActive state count completions] in I2, I3. auto.
    + unfold tick_enabled in Hr. rewrite Ht in Hr.
      destruct (Z.leb_spec (t + 1000) now); [lia | discriminate Hr].
Qed.

Hypothesis Hd : 1 <= d.

(** What every run keeps: the counter stays between 1 and the duration, an
    inactive countdown is as it was mounted, an active one has its interval
    running. *)
Lemma run_invariant tr : forall k k',
  1 <= count (state k) <= d ->
  (isActive k = false -> state k = mount d) ->
  (isActive k = true -> timer (state k) <> None) ->
  run d tr k = Some k' ->
  1 <= count (state k') <= d
  /\ (isActive k' = false -> state k' = mount d)
  /\ (isActive k' = true -> timer (state k') <> None).
Proof.
  induction tr as [|[now ev] tr IH]; intros k k' Hc Hi Ha Hr.
  - cbn [run] in Hr. injection Hr as <-. auto.
  - cbn [run] in Hr.
    destruct (step d now ev k) as [k1|] eqn:E; [|discriminate Hr].
    apply (IH k1 k'); [ | | | exact Hr];
      destruct ev as [b| |]; cbn [step] in E.
    + destruct (Bool.eqb b (isActive k)); injection E as <-; [exact Hc|].
      destruct b; cbn; lia.
    + injection E as <-. destruct (isActive k); cbn; lia.
    + destruct (tick_enabled now (state k)); [|discriminate E].
      unfold tick in E. destruct (Z.leb_spec (count (state k)) 1);
        injection E as <-; cbn; lia.
    + destruct (Bool.eqb_spec b (isActive k)) as [Eb|Eb];
        injection E as <-; [exact Hi|].
      destruct b; cbn; [discriminate | reflexivity].
    + injection E as <-. cbn. destruct (isActive k); [discriminate|reflexivity].
    + destruct (tick_enabled now (state k)) eqn:T; [|discriminate E].
      unfold tick in E. destruct (count (state k) <=? 1);
        injection E as <-; cbn; intros Hf; specialize (Hi Hf);
        unfold tick_enabled in T; rewrite Hi in T; discriminate T.
    + destruct (Bool.eqb_spec b (isActive k)) as [Eb|Eb];
        injection E as <-; [exact Ha|].
      destruct b; cbn; [discriminate | discriminate].
    + injection E as <-. cbn. destruct (isActive k); [discriminate|].
      discriminate.
    + destruct (tick_enabled now (state k)); [|discriminate E].
      unfold tick in E. destruct (count (state k) <=? 1);
        injection E as <-; cbn; discriminate.
Qed.

End CountdownAnyDuration.

(** X17: for any duration [d], [onComplete] is called for the first time
    on tick number [max d 1] after the activation: durations of 1, 0 or
    less complete on the first tick. *)
Theorem countdown_completes_after_duration_ticks
  (d t0 : Z) (tr : list (Z * CountdownTimer.Event))
  (k' : CountdownTimer.Component) :
  CountdownTimer.steady tr = true ->
  CountdownTimer.run d ((t0, CountdownTimer.SetActive true) :: tr)
                     (CountdownTimer.mounted d) = Some k' ->
  (Z.of_nat (CountdownTimer.ticks tr) < Z.max d 1 ->
     CountdownTimer.completions k' = 0%nat)
  /\ (Z.of_nat (CountdownTimer.ticks tr) = Z.max d 1 ->
     CountdownTimer.completions k' = 1%nat).
Proof.
  intros Hs Hr. cbn in Hr.
  match type of Hr with
  | CountdownTimer.run _ _ ?k0 = _ =>
      destruct (run_counts d tr k0 k' eq_refl Hs Hr) as [I1 I2]
  end.
  cbn [CountdownTimer.state CountdownTimer.count CountdownTimer.completions]
    in I1, I2.
  split; intros H.
  - now destruct (I1 H).
  - now destruct (I2 H).
Qed.

Lemma countdown_completes_after_duration_ticks_witness :
  CountdownTimer.steady [(1000, CountdownTimer.Tick)] = true
  /\ exists k',
       CountdownTimer.run 0
         [(0, CountdownTimer.SetActive true); (1000, CountdownTimer.Tick)]
         (CountdownTimer.mounted 0) = Some k'
       /\ CountdownTimer.completions k' = 1%nat.
Proof.
  split; [reflexivity|]. eexists. split; [reflexivity|].
  apply (proj2 (countdown_completes_after_duration_ticks 0 0
                  [(1000, CountdownTimer.Tick)] _ eq_refl eq_refl)).
  reflexivity.
Defined.

(** X18: every render of the parent sets the interval anew, so while the
    parent renders again less than 1000ms after each render no tick is ever
    due: the counter stands still and [onComplete] is not called. *)
Theorem countdown_starved_by_renders
  (d t : Z) (tr : list (Z * CountdownTimer.Event))
  (k k' : CountdownTimer.Component) :
  CountdownTimer.isActive k = true ->
  CountdownTimer.timer (CountdownTimer.state k) = Some t ->
  CountdownTimer.steady tr = true -> Runs.dense t tr = true ->
  CountdownTimer.run d tr k = Some k' ->
  CountdownTimer.ticks tr = 0%nat
  /\ CountdownTimer.completions k' = CountdownTimer.completions k
  /\ CountdownTimer.count (CountdownTimer.state k')
     = CountdownTimer.count (CountdownTimer.state k).
Proof. apply run_dense. Qed.

Lemma countdown_starved_by_renders_witness :
  Runs.dense 0 Fixtures.busyParent = true
  /\ exists k',
       CountdownTimer.run 3 Fixtures.busyParent (Fixtures.activated 3)
       = Some k'
       /\ CountdownTimer.completions k' = 0%nat
       /\ CountdownTimer.count (CountdownTimer.state k') = 3.
Proof.
  split; [reflexivity|]. eexists. split; [reflexivity|].
  exact (proj2 (countdown_starved_by_renders 3 0 Fixtures.busyParent
                  (Fixtures.activated 3) _ eq_refl eq_refl eq_refl eq_refl
                  eq_refl)).
Defined.

(** X19: for a duration [d >= 1], whatever the parent does, the counter
    shown stays between 1 and [d]; while inactive the countdown is as it
    was mounted, with no interval, so that no tick can happen; while
    active its interval is running. *)
Theorem countdown_counter_in_range
  (d : Z) (tr : list (Z * CountdownTimer.Event))
  (k' : CountdownTimer.Component) :
  1 <= d ->
  CountdownTimer.run d tr (CountdownTimer.mounted d) = Some k' ->
  1 <= CountdownTimer.count (CountdownTimer.state k') <= d
  /\ (CountdownTimer.isActive k' = false ->
      CountdownTimer.state k' = CountdownTimer.mount d
      /\ forall now, CountdownTimer.step d now CountdownTimer.Tick k' = None)
  /\ (CountdownTimer.isActive k' = true ->
      CountdownTimer.timer (CountdownTimer.state k') <> None).
Proof.
  intros Hd Hr.
  destruct (run_invariant d Hd tr (CountdownTimer.mounted d) k')
    as (I1 & I2 & I3); [cbn; lia | reflexivity | discriminate | exact Hr |].
  split; [exact I1|]. split; [|exact I3].
  intros Hf. specialize (I2 Hf). split; [exact I2|].
  intros now. cbn [CountdownTimer.step]. unfold CountdownTimer.tick_enabled.
  now rewrite I2.
Qed.

Lemma countdown_counter_in_range_witness :
  1 <= 3
  /\ exists k',
       CountdownTimer.run 3
         ((0, CountdownTimer.SetActive true) :: Samples.twoTicks)
         (CountdownTimer.mounted 3) = Some k'
       /\ 1 <= CountdownTimer.count (CountdownTimer.state k') <= 3.
Proof.
  assert (H : 1 <= 3) by discriminate.
  split; [exact H|]. eexists. split; [reflexivity|].
  exact (proj1 (countdown_counter_in_range 3
                  ((0, CountdownTimer.SetActive true) :: Samples.twoTicks)
                  _ H eq_refl)).
Defined.

(** ** Runs of [App] *)

Section AppSteps.

Import App.

(** Unfolds the handlers and the setters. *)
Ltac run_unfold :=
  unfold step, handle, commit, enabled, handlePoseDetected,
    handleManualCapture, handleCountdownComplete, resume, startCountdown,
    gate_closed, cooling_down,
    setCurrentVideo, setCurrentPose, setIsCountdownActive, setAutoCapture,
    setCapturedPhotos, setIsCapturing, setRefs, setCountdown, setSuspended,
    CountdownTimer.tick, CountdownTimer.effect, CountdownTimer.tick_enabled,
    CountdownTimer.mount, duration in *.

(** Reduces the projections of the records built by the setters. *)
Ltac run_cbn :=
  cbn [currentVideo currentPose isCountdownActive autoCapture capturedPhotos
       isCapturing refs countdown suspended
       lastCaptureTime poseStableTime wasCorrectPose
       CountdownTimer.count CountdownTimer.timer
       origin outcome fst snd negb orb andb Bool.eqb] in *.

(** A condition is split once the record it reads has been computed. *)
Ltac computed b :=
  lazymatch b with
  | context [fst _] => fail
  | context [snd _] => fail
  | context [isCountdownActive _] => fail
  | context [currentVideo _] => fail
  | context [if _ then _ else _] => fail
  | _ => idtac
  end.

(** Splits on the conditions of the handlers, innermost records first. *)
Ltac run_cases :=
  repeat match goal with
  | |- context [if ?b then _ else _] =>
      computed b;
      lazymatch b with
      | (?a <? ?c) => destruct (Z.ltb_spec a c)
      | (?a <=? ?c) => destruct (Z.leb_spec a c)
      | _ => destruct b eqn:?
      end; run_cbn
  | |- context [match ?o with Some _ => _ | None => _ end] =>
      is_var o; destruct o eqn:?; run_cbn
  | |- context [match ?o with nil => _ | cons _ _ => _ end] =>
      is_var o; destruct o eqn:?; run_cbn
  | |- context [match ?o with Auto => _ | Manual => _ end] =>
      is_var o; destruct o; run_cbn
  | k : Suspended |- _ => destruct k as [? ?]; run_cbn
  end.

(** While the countdown is active a step emits no trigger, touches neither
    the stability clock nor the counter's owner, and only the completing
    tick clears [isCountdownActive]. *)
Lemma step_during_countdown now ev s :
  isCountdownActive s = true ->
  snd (step now ev s) <> Some Trigger
  /\ (isCountdownActive (fst (step now ev s)) = false
      <-> snd (step now ev s) = Some Completed)
  /\ (snd (step now ev s) = Some Completed ->
      exists r, ev = Tick r /\ CountdownTimer.count (countdown s) <= 1)
  /\ poseStableTime (refs (fst (step now ev s))) = poseStableTime (refs s)
  /\ wasCorrectPose (refs (fst (step now ev s))) = wasCorrectPose (refs s).
Proof.
  destruct s as [cv cp ica ac photos icap [lct pst wcp] [cnt tm] susp].
  cbn [isCountdownActive]. intros ->.
  destruct ev as [|p|c|r| |r| |i|]; run_unfold; run_cbn; run_cases;
    try match goal with
        | H : _ || true = false |- _ =>
            rewrite orb_true_r in H; discriminate H
        end;
    (split; [discriminate|]);
    (split; [split; intros Hx; discriminate Hx || reflexivity|]);
    (split; [intros Hx;
             first [discriminate Hx | eexists; split; [reflexivity|lia]]|]);
    split; reflexivity.
Qed.

(** A step changes [lastCaptureTime] only to the time of the step. *)
Lemma step_lastCaptureTime now ev s :
  lastCaptureTime (refs (fst (step now ev s))) = lastCaptureTime (refs s)
  \/ lastCaptureTime (refs (fst (step now ev s))) = now.
Proof.
  destruct s as [cv cp ica ac photos icap [lct pst wcp] [cnt tm] susp].
  destruct ev as [|p|c|r| |r| |i|]; run_unfold; run_cbn; run_cases;
    auto.
Qed.

(** A step that removes no photo appends at most one, and only when a
    suspended handler resumes. *)
Lemma step_appends now ev s :
  match ev with RemovePhoto _ | ClearPhotos => False | _ => True end ->
  exists added,
    capturedPhotos (fst (step now ev s)) = (capturedPhotos s ++ added)%list
    /\ (List.length added
        <= if Runs.is_resume (now, ev) then 1 else 0)%nat.
Proof.
  destruct s as [cv cp ica ac photos icap [lct pst wcp] [cnt tm] susp].
  destruct ev as [|p|c|r| |r| |i|]; intros Hev; try destruct Hev;
    cbn [Runs.is_resume snd]; run_unfold; run_cbn; run_cases;
    try (exists []; split; [symmetry; apply app_nil_r | cbn; lia]).
  all: eexists; split; [reflexivity | cbn; lia].
Qed.

(** A trigger comes only from a good sample that finds the gate open, past
    the cooldown and the hold; it activates the countdown and sets its
    interval. *)
Lemma step_trigger now ev s :
  snd (step now ev s) = Some Trigger ->
  exists pose,
    ev = PoseDetected pose /\ isGoodPose pose = true
    /\ autoCapture s = true /\ currentVideo s = true
    /\ isCapturing s = false /\ isCountdownActive s = false
    /\ 5000 <= now - lastCaptureTime (refs s)
    /\ 2000 < now - poseStableTime (refs s)
    /\ isCountdownActive (fst (step now ev s)) = true
    /\ CountdownTimer.timer (countdown (fst (step now ev s))) = Some now
    /\ CountdownTimer.count (countdown (fst (step now ev s)))
       = CountdownTimer.count (countdown s).
Proof.
  destruct s as [cv cp ica ac photos icap [lct pst wcp] [cnt tm] susp].
  destruct ev as [|p|c|r| |r| |i|]; destruct cv, ica, ac, icap;
    run_unfold; run_cbn; run_cases; intros Hx; try discriminate Hx.
  all: exists p; repeat split; try reflexivity; try assumption; lia.
Qed.

(** Whenever [isCapturing] is set after a step, a capture is in flight. *)
Lemma step_capturing now ev s :
  (isCapturing s = true -> suspended s <> []) ->
  isCapturing (fst (step now ev s)) = true ->
  suspended (fst (step now ev s)) <> [].
Proof.
  destruct s as [cv cp ica ac photos icap [lct pst wcp] [cnt tm] susp].
  destruct ev as [|p|c|r| |r| |i|]; destruct cv, ica, icap;
    run_unfold; run_cbn; intros I; run_cases; intros Hx;
    try discriminate Hx; try (apply I; exact Hx);
    try (intros E; apply app_eq_nil in E; destruct E as [_ E];
         discriminate E).
Qed.

(** Only the checkbox changes [autoCapture]. *)
Lemma step_autoCapture now ev s :
  autoCapture (fst (step now ev s))
  = match ev with SetAutoCapture c => c | _ => autoCapture s end.
Proof.
  destruct s as [cv cp ica ac photos icap [lct pst wcp] [cnt tm] susp].
  destruct ev as [|p|c|r| |r| |i|]; run_unfold; run_cbn; run_cases;
    reflexivity.
Qed.

End AppSteps.

(** X20: once the countdown is active nothing but its own completing tick
    ends it: pose samples, the checkbox, the button and resumed captures
    leave it active, emit no trigger and do not touch the stability
    clock. *)
Theorem countdown_cannot_be_cancelled
  (now : Z) (ev : App.Event) (s : App.State) :
  App.isCountdownActive s = true ->
  snd (App.step now ev s) <> Some App.Trigger
  /\ (App.isCountdownActive (fst (App.step now ev s)) = false
      <-> snd (App.step now ev s) = Some App.Completed)
  /\ (snd (App.step now ev s) = Some App.Completed ->
      exists r, ev = App.Tick r
                /\ CountdownTimer.count (App.countdown s) <= 1)
  /\ App.poseStableTime (App.refs (fst (App.step now ev s)))
     = App.poseStableTime (App.refs s)
  /\ App.wasCorrectPose (App.refs (fst (App.step now ev s)))
     = App.wasCorrectPose (App.refs s).
Proof. apply step_during_countdown. Qed.

Lemma countdown_cannot_be_cancelled_witness :
  App.isCountdownActive (Runs.final App.init (firstn 3 Samples.autoSession))
  = true
  /\ App.isCountdownActive
       (fst (App.step 1002300 (App.PoseDetected Samples.turnedAway)
               (Runs.final App.init (firstn 3 Samples.autoSession))))
     = true.
Proof.
  split; [reflexivity|].
  destruct (countdown_cannot_be_cancelled 1002300
              (App.PoseDetected Samples.turnedAway)
              (Runs.final App.init (firstn 3 Samples.autoSession)) eq_refl)
    as (_ & H & _).
  destruct (App.isCountdownActive
              (fst (App.step 1002300 (App.PoseDetected Samples.turnedAway)
                      (Runs.final App.init (firstn 3 Samples.autoSession)))));
    [reflexivity|].
  discriminate (proj1 H eq_refl).
Defined.

Lemma final_cons s now ev tr :
  Runs.final s ((now, ev) :: tr) = Runs.final (fst (App.step now ev s)) tr.
Proof. reflexivity. Qed.

(** X21: as long as the user removes nothing, the collection only grows at
    its end: the photos of the start stay in front in their order, and at
    most one photo is added for each suspended capture that resumes. *)
Theorem photos_only_appended (s : App.State) (tr : list (Z * App.Event)) :
  Runs.keeps_photos tr = true ->
  exists added,
    App.capturedPhotos (Runs.final s tr)
    = (App.capturedPhotos s ++ added)%list
    /\ (List.length added <= List.length (filter Runs.is_resume tr))%nat.
Proof.
  revert s. induction tr as [|[now ev] tr IH]; intros s Hk.
  - exists []. split; [symmetry; apply app_nil_r | apply Nat.le_refl].
  - unfold Runs.keeps_photos in Hk. cbn [forallb snd] in Hk.
    apply andb_prop in Hk. destruct Hk as [He Hk].
    rewrite final_cons.
    destruct (step_appends now ev s) as (a1 & E1 & L1);
      [destruct ev; try exact I; discriminate He|].
    destruct (IH (fst (App.step now ev s)) Hk) as (a2 & E2 & L2).
    exists (a1 ++ a2)%list. split.
    + rewrite E2, E1. now rewrite app_assoc.
    + rewrite length_app. cbn [filter].
      destruct (Runs.is_resume (now, ev)); cbn [List.length]; lia.
Qed.

Lemma photos_only_appended_witness :
  Runs.keeps_photos Samples.autoSession = true
  /\ exists added,
       App.capturedPhotos (Runs.final App.init Samples.autoSession)
       = (App.capturedPhotos App.init ++ added)%list
       /\ (List.length added <= 1)%nat.
Proof.
  split; [reflexivity|].
  exact (photos_only_appended App.init Samples.autoSession eq_refl).
Defined.

Section CooldownRuns.

Import App.

Lemma cooldown_run tr : forall s clock L,
  L <= lastCaptureTime (refs s) -> L <= clock ->
  valid clock s tr = true ->
  forall j T, nth_error (transitions s tr) j = Some T -> fired T = true ->
    5000 <= at_time T - L.
Proof.
  induction tr as [|[now ev] tr IH]; intros s clock L HL Hc V j T HT HF.
  - destruct j; discriminate HT.
  - cbn [valid] in V. apply andb_prop in V. destruct V as [V V3].
    apply andb_prop in V. destruct V as [V1 _]. apply Z.leb_le in V1.
    pose proof (transitions_step _ _ _ _ HT) as ET.
    cbn [transitions] in HT.
    destruct (step now ev s) as [s' out] eqn:E. cbn [fst] in V3.
    destruct j as [|j]; cbn [nth_error] in HT.
    + destruct (transition_cases _ ET) as [H|[H|[H|H]]];
        try (destruct H as (_ & _ & H & _); congruence);
        try (destruct H as (H & _); congruence).
      destruct H as (P & _). injection HT as <-. unfold processed in P.
      cbn [event pre at_time] in P |- *.
      destruct ev; try discriminate P.
      apply andb_prop in P. destruct P as [_ P].
      apply negb_true_iff in P. unfold cooling_down in P.
      apply Z.ltb_ge in P. lia.
    + apply (IH s' now L) with (j := j); try assumption; [|lia].
      pose proof (step_lastCaptureTime now ev s) as HS.
      rewrite E in HS. cbn [fst] in HS. destruct HS as [HS|HS]; lia.
Qed.

End CooldownRuns.

(** X22: after a capture made through the countdown has succeeded at time
    [t], no trigger is emitted before [t + 5000] in any execution that
    follows, whatever the poses, the button and the checkbox do. *)
Theorem no_trigger_within_cooldown
  (s0 : App.State) (t : Z) (k : App.Suspended) (rest : list App.Suspended)
  (photo : CapturedPhoto) (tr : list (Z * App.Event))
  (j : nat) (T : App.Transition) :
  App.suspended s0 = k :: rest ->
  App.origin k = App.Auto -> App.outcome k = Some photo ->
  App.valid t (fst (App.step t App.Resume s0)) tr = true ->
  nth_error (App.transitions (fst (App.step t App.Resume s0)) tr) j = Some T ->
  App.fired T = true ->
  5000 <= App.at_time T - t.
Proof.
  intros Hs Ho Hp V HT HF.
  destruct (auto_capture_starts_cooldown t s0 k rest photo Hs Ho Hp) as [L _].
  apply (cooldown_run tr (fst (App.step t App.Resume s0)) t t) with (j := j);
    try assumption; lia.
Qed.

Lemma no_trigger_within_cooldown_witness :
  exists k rest photo T,
    App.suspended Fixtures.beforeResume = k :: rest
    /\ App.origin k = App.Auto /\ App.outcome k = Some photo
    /\ App.valid 1005201
         (fst (App.step 1005201 App.Resume Fixtures.beforeResume))
         Fixtures.afterResume = true
    /\ nth_error
         (App.transitions
            (fst (App.step 1005201 App.Resume Fixtures.beforeResume))
            Fixtures.afterResume) 1 = Some T
    /\ App.fired T = true
    /\ 5000 <= App.at_time T - 1005201.
Proof.
  do 4 eexists.
  split; [reflexivity|]. split; [reflexivity|]. split; [reflexivity|].
  split; [reflexivity|]. split; [reflexivity|]. split; [reflexivity|].
  exact (no_trigger_within_cooldown Fixtures.beforeResume 1005201 _ _ _
           Fixtures.afterResume 1 _ eq_refl eq_refl eq_refl eq_refl eq_refl
           eq_refl).
Defined.



(** X24: a trigger is emitted only by a good pose sample that finds
    auto-capture on, the video ready, no capture in flight, no countdown
    running, the last countdown capture at least 5000ms back and the pose
    held for more than 2000ms; the step activates the countdown and sets
    its interval at that time, the counter being as it was. *)
Theorem trigger_needs_open_gate (now : Z) (ev : App.Event) (s : App.State) :
  snd (App.step now ev s) = Some App.Trigger ->
  exists pose,
    ev = App.PoseDetected pose /\ App.isGoodPose pose = true
    /\ App.autoCapture s = true /\ App.currentVideo s = true
    /\ App.isCapturing s = false /\ App.isCountdownActive s = false
    /\ 5000 <= now - App.lastCaptureTime (App.refs s)
    /\ 2000 < now - App.poseStableTime (App.refs s)
    /\ App.isCountdownActive (fst (App.step now ev s)) = true
    /\ CountdownTimer.timer (App.countdown (fst (App.step now ev s)))
       = Some now
    /\ CountdownTimer.count (App.countdown (fst (App.step now ev s)))
       = CountdownTimer.count (App.countdown s).
Proof. apply step_trigger. Qed.

Lemma trigger_needs_open_gate_witness :
  snd (App.step 1002200 (App.PoseDetected Samples.passportPose)
         (Runs.final App.init (firstn 2 Samples.autoSession)))
  = Some App.Trigger
  /\ exists pose,
       App.isGoodPose pose = true
       /\ App.isCapturing
            (Runs.final App.init (firstn 2 Samples.autoSession)) = false.
Proof.
  split; [reflexivity|].
  destruct (trigger_needs_open_gate 1002200
              (App.PoseDetected Samples.passportPose)
              (Runs.final App.init (firstn 2 Samples.autoSession)) eq_refl)
    as (pose & _ & G & _ & _ & C & _).
  exists pose. split; [exact G | exact C].
Defined.

(** X25: [isCapturing] never outlives its capture: in a state where the
    flag is set a capture is in flight, whose handler clears the flag when
    it resumes. *)
Theorem capturing_flag_has_pending_capture
  (s : App.State) (tr : list (Z * App.Event)) :
  (App.isCapturing s = true -> App.suspended s <> []) ->
  App.isCapturing (Runs.final s tr) = true ->
  App.suspended (Runs.final s tr) <> [].
Proof.
  revert s. induction tr as [|[now ev] tr IH]; intros s I.
  - exact I.
  - rewrite final_cons. apply IH. apply step_capturing. exact I.
Qed.

Lemma capturing_flag_has_pending_capture_witness :
  App.isCapturing (Runs.final App.init Fixtures.buttonPressed) = true
  /\ App.suspended (Runs.final App.init Fixtures.buttonPressed) <> [].
Proof.
  split; [reflexivity|].
  apply (capturing_flag_has_pending_capture App.init Fixtures.buttonPressed);
    [intros H; discriminate H | reflexivity].
Defined.

Lemma stays_off_run tr : forall s,
  App.autoCapture s = false -> Runs.stays_off tr = true ->
  forall T, In T (App.transitions s tr) -> App.fired T = false.
Proof.
  induction tr as [|[now ev] tr IH]; intros s Hs Ho T HT.
  - destruct HT.
  - unfold Runs.stays_off in Ho. cbn [forallb snd] in Ho.
    apply andb_prop in Ho. destruct Ho as [He Ho].
    cbn [App.transitions] in HT.
    pose proof (step_trigger now ev s) as G.
    pose proof (step_autoCapture now ev s) as A.
    destruct (App.step now ev s) as [s' out]. cbn [fst snd] in G, A.
    destruct HT as [<-|HT].
    + unfold App.fired. cbn [App.output].
      destruct out as [[|]|]; try reflexivity.
      destruct (G eq_refl) as (_ & _ & _ & C & _). congruence.
    + apply (IH s'); try assumption.
      rewrite A. destruct ev as [|p|[|]|r| |r| |i|]; try exact Hs.
      * discriminate He.
      * reflexivity.
Qed.

(** X26: with auto-capture off and the checkbox left alone no trigger is
    emitted, however long a good pose is held. *)
Theorem no_trigger_while_auto_capture_off
  (s : App.State) (tr : list (Z * App.Event)) (T : App.Transition) :
  App.autoCapture s = false -> Runs.stays_off tr = true ->
  In T (App.transitions s tr) -> App.fired T = false.
Proof. intros Hs Ho. now apply stays_off_run. Qed.

Lemma no_trigger_while_auto_capture_off_witness :
  App.autoCapture Fixtures.autoOff = false
  /\ Runs.stays_off Fixtures.longHold = true
  /\ forall T, In T (App.transitions Fixtures.autoOff Fixtures.longHold) ->
               App.fired T = false.
Proof.
  split; [reflexivity|]. split; [reflexivity|].
  intros T.
  exact (no_trigger_while_auto_capture_off Fixtures.autoOff
           Fixtures.longHold T eq_refl eq_refl).
Defined.
